(** * kotto: the agent execution controller

    A shallow embedding of [AgentController] and of the [run] entry point
    (mod.ts), together with the properties of the tick loop: retry budget,
    dispatch of capabilities and built-ins, classification of errors and the
    shape of the values a tick returns. *)

From Stdlib Require Import String Ascii List Bool Arith Lia NArith ZArith.
Import ListNotations.
Local Open Scope list_scope.
Local Open Scope string_scope.
Set Warnings "-register-all".

(** ** Values *)

(** The JSON-compatible values that travel as call arguments, capability
    outputs and exit payloads ([any] in the source).  Numbers are kept as
    integers: the controller never computes on them. *)
Inductive JsValue : Type :=
| JsUndefined
| JsNull
| JsBool (b : bool)
| JsNumber (n : Z)
| JsString (s : string)
| JsArray (items : list JsValue)
| JsObject (fields : list (string * JsValue)).

(** What a capability can return ([any]), by what [JSON.stringify] makes of
    it: [undefined] or a value that has a JSON text ([Json]); a function or a
    symbol, for which [JSON.stringify] gives [undefined] ([Unrendered]); a
    [BigInt] or a cyclic object, for which it throws a [TypeError], whose
    message is kept ([Unserializable]). *)
Inductive Output : Type :=
| Json (value : JsValue)
| Unrendered
| Unserializable (message : string).

(** ** Strings *)

(** [s.startsWith(p)] *)
Fixpoint startsWith (s p : string) {struct p} : bool :=
  match p, s with
  | EmptyString, _ => true
  | String _ _, EmptyString => false
  | String a p', String b s' => Ascii.eqb a b && startsWith s' p'
  end.

(** [s.split(sep)] for a one-character separator: always at least one piece. *)
Fixpoint split (sep : ascii) (s : string) : list string :=
  match s with
  | EmptyString => [EmptyString]
  | String ch rest =>
      if Ascii.eqb ch sep then EmptyString :: split sep rest
      else match split sep rest with
           | piece :: pieces => String ch piece :: pieces
           | [] => [String ch EmptyString]
           end
  end.

(** [s.includes(p)] *)
Fixpoint includes (s p : string) : bool :=
  startsWith s p ||
  match s with
  | EmptyString => false
  | String _ s' => includes s' p
  end.

(** The line feed. *)
Definition nl : string := String (ascii_of_nat 10) "".

(** A template literal [`${x}`] on a value that may be [undefined]. *)
Definition interpolate (x : option string) : string :=
  match x with
  | Some s => s
  | None => "undefined"
  end.

(** ** Errors (errors.ts) *)

(** Modelled from the spec: errors.ts is not part of the sources at hand.
    The taxonomy of section 7 has four classes, told apart by [instanceof];
    [Feedback] and [Internal] carry a message, [Interrupt] wraps the inner
    application error ([inner_error]) and [Exit] carries the terminal
    [output] ([new Exit()] leaves it [undefined]).  Every other error object
    that can be thrown (a [TypeError], an [Error] of a capability, a failure
    of the model client) is a [NativeError] with its name and message, and
    anything thrown that is not an error object ([throw null],
    [throw undefined], [throw 42], [throw { code: 1 }]) is a
    [ThrownValue]. *)
Inductive Thrown : Type :=
| Feedback (message : string)
| Interrupt (inner_error : Thrown)
| Internal (message : string)
| Exit (output : JsValue)
| NativeError (name message : string)
| ThrownValue (value : JsValue).

Definition TypeError (message : string) : Thrown :=
  NativeError "TypeError" message.

Definition instanceofFeedback (err : Thrown) : bool :=
  match err with Feedback _ => true | _ => false end.

Definition instanceofInterrupt (err : Thrown) : bool :=
  match err with Interrupt _ => true | _ => false end.

Definition instanceofInternal (err : Thrown) : bool :=
  match err with Internal _ => true | _ => false end.

Definition instanceofExit (err : Thrown) : bool :=
  match err with Exit _ => true | _ => false end.

(** The thrown values that have no properties to read: [null] and
    [undefined]. *)
Definition nullish (err : Thrown) : bool :=
  match err with
  | ThrownValue JsNull | ThrownValue JsUndefined => true
  | _ => false
  end.

(** An instance of none of the four classes. *)
Definition unclassified (err : Thrown) : bool :=
  match err with
  | NativeError _ _ | ThrownValue _ => true
  | Feedback _ | Interrupt _ | Internal _ | Exit _ => false
  end.

(** The result of running a piece of code that may throw. *)
Inductive Outcome (A : Type) : Type :=
| Returned (a : A)
| Threw (err : Thrown).

Arguments Returned {A} a.
Arguments Threw {A} err.

(** ** Calls, actions and tick results *)

Record FunctionCall : Type := {
  name : string;
  reasoning : option string;
  arguments : list JsValue
}.

(** [Action.output] is [None] until the call has returned. *)
Record Action : Type := {
  call : FunctionCall;
  action_output : option JsValue
}.

Inductive Role : Type := user | system.

(** [prompt = None] is the object without a [prompt] property, as in the
    literal [{ role: "user" }]. *)
Record Pending : Type := {
  role : Role;
  prompt : option string
}.

Record Exited : Type := {
  output : JsValue
}.

(** [Exited | Pending], the objects [tick] resolves to. *)
Inductive TickResult : Type :=
| ResExited (e : Exited)
| ResPending (p : Pending).

(** The own property names of a tick result, read off the object literals of
    [tick]. *)
Definition keys (r : TickResult) : list string :=
  match r with
  | ResExited _ => ["output"]
  | ResPending {| prompt := None |} => ["role"]
  | ResPending {| prompt := Some _ |} => ["prompt"; "role"]
  end.

(** [key in r] *)
Definition js_in (key : string) (r : TickResult) : bool :=
  existsb (String.eqb key) (keys r).

Definition isExited (pending : TickResult) : bool :=
  js_in "output" pending.

Definition isPending (exited : TickResult) : bool :=
  js_in "prompt" exited.

(** ** Declaration scope (prompts.ts) *)

Record Node : Type := {
  node_type : string;
  node_fmt : string;
  node_id : string;
  node_ast_ty : string
}.

(** Modelled from the spec: prompts.ts is not part of the sources at hand.
    A scope accumulates declaration fragments in the order they are added:
    [addFromId] records the stable path of a declaration of the index,
    [addNode] an already rendered node. *)
Inductive ScopeItem : Type :=
| FromId (kind : string) (path : list string)
| Direct (node : Node).

Definition Prompts : Type := list Node.

Record Scope : Type := {
  scope_index : Prompts;
  scope_items : list ScopeItem
}.

Definition newScope (prompts : Prompts) : Scope :=
  {| scope_index := prompts; scope_items := [] |}.

Definition addFromId (kind : string) (path : list string) (scope : Scope) : Scope :=
  {| scope_index := scope_index scope;
     scope_items := scope_items scope ++ [FromId kind path] |}.

Definition addNode (node : Node) (scope : Scope) : Scope :=
  {| scope_index := scope_index scope;
     scope_items := scope_items scope ++ [Direct node] |}.

(** ** Capability registry *)

Record ExportDescriptor : Type := {
  property_key : string;
  adder : Scope -> Scope;
  description : option string
}.

(** A [Map<string, ExportDescriptor>]: kept in insertion order, which
    [forEach] follows. *)
Module ExportsMap.

Definition t : Type := list (string * ExportDescriptor).

Definition empty : t := [].

Fixpoint get (m : t) (key : string) : option ExportDescriptor :=
  match m with
  | [] => None
  | (k, d) :: m' => if String.eqb k key then Some d else get m' key
  end.

Fixpoint insert (m : t) (key : string) (d : ExportDescriptor) : t :=
  match m with
  | [] => [(key, d)]
  | (k, d') :: m' =>
      if String.eqb k key then (k, d) :: m' else (k, d') :: insert m' key d
  end.

Definition forEach {S : Type} (m : t) (fn : ExportDescriptor -> S -> S) (s : S) : S :=
  fold_left (fun acc kd => fn (snd kd) acc) m s.

End ExportsMap.

(** The [use] decorator: registers [property_key] of the class named
    [class_name]; the registry is created on first use.  The identifiers
    [Scope.ident(...)] are kept as the names themselves. *)
Definition use (class_name : string) (target_exports : option ExportsMap.t)
    (key : string) : option ExportsMap.t :=
  let exports :=
    match target_exports with
    | None => ExportsMap.empty
    | Some m => m
    end in
  Some (ExportsMap.insert exports key
          {| property_key := key;
             adder := addFromId "method_decl" [class_name; key];
             description := None |}).

(** ** Template (const.ts) *)

(** Modelled from the spec: const.ts is not part of the sources at hand.
    The four operations of section 4.3; only [parseResponse] can fail. *)
Module Template.

Record t : Type := {
  renderContext : Scope -> string;
  renderOutput : JsValue -> string;
  renderError : Thrown -> string;
  parseResponse : string -> Outcome FunctionCall
}.

End Template.

Record Message : Type := {
  msg_role : Role;
  content : string
}.

(** ** External collaborators *)

(** Modelled from the spec: llm.ts and const.ts are not part of the sources
    at hand.  The model client exchanges one ordered list of role-tagged
    messages for one completion string, or fails; it is a state machine on
    [LLM], and [OpenAIChatCompletion] builds one from a key.  [AgentState] is
    what the agent object keeps between calls of its methods, and [Naive] is
    the default template. *)
Record World : Type := {
  LLM : Type;
  llm_complete : LLM -> list Message -> Outcome string * LLM;
  OpenAIChatCompletion : string -> LLM;
  AgentState : Type;
  Naive : Template.t
}.

(** A function-valued property of the agent, called with [...args]: it
    returns or throws, and leaves the agent in a new state.  The properties
    of the agent object themselves ([exports], [template], its methods) are
    taken as fixed while the controller runs. *)
Definition Method (W : World) : Type :=
  AgentState W -> list JsValue -> Outcome Output * AgentState W.

(** The agent object: [agent.exports] ([None] when no method was decorated
    with [use]), [agent.template], and [agent[key]] where it is a function
    ([agent_function key = None] when [typeof agent[key] !== "function"]). *)
Record Agent (W : World) : Type := {
  agent_exports : option ExportsMap.t;
  agent_template : option Template.t;
  agent_function : string -> option (Method W);
  agent_state : AgentState W
}.

Arguments agent_exports {W} _.
Arguments agent_template {W} _.
Arguments agent_function {W} _ _.
Arguments agent_state {W} _.

Record AgentControllerOpts : Type := {
  allow_exit : option bool
}.

Record AgentController (W : World) : Type := {
  agent : Agent W;
  prompts : Prompts;
  exports : ExportsMap.t;
  llm : LLM W;
  template : Template.t;
  history : list Action;
  opts : AgentControllerOpts;
  retries : nat;
  max_retries : nat
}.

Arguments agent {W} _.
Arguments prompts {W} _.
Arguments exports {W} _.
Arguments llm {W} _.
Arguments template {W} _.
Arguments history {W} _.
Arguments opts {W} _.
Arguments retries {W} _.
Arguments max_retries {W} _.

(** [x || y] and [x ?? y] on a value that may be undefined. *)
Definition or_else {A : Type} (x : option A) (y : A) : A :=
  match x with
  | Some a => a
  | None => y
  end.

Definition option_string_eqb (x : option string) (y : string) : bool :=
  match x with
  | Some s => String.eqb s y
  | None => false
  end.

(** The node [renderContext] adds for the built-in exit. *)
Definition exit_node : Node :=
  {| node_type := "ts";
     node_fmt := "builtins.exit";
     node_id := "builtins.exit";
     node_ast_ty := "fn_decl" |}.

(** [last.output] *)
Definition read_output (a : Action) : JsValue :=
  or_else (action_output a) JsUndefined.

Section Controller.

Variable W : World.

(** *** Field updates *)

Definition set_agent_state (st : AgentState W) (a : Agent W) : Agent W :=
  {| agent_exports := agent_exports a;
     agent_template := agent_template a;
     agent_function := agent_function a;
     agent_state := st |}.

Definition with_agent (a : Agent W) (c : AgentController W) : AgentController W :=
  {| agent := a; prompts := prompts c; exports := exports c; llm := llm c;
     template := template c; history := history c; opts := opts c;
     retries := retries c; max_retries := max_retries c |}.

Definition with_llm (l : LLM W) (c : AgentController W) : AgentController W :=
  {| agent := agent c; prompts := prompts c; exports := exports c; llm := l;
     template := template c; history := history c; opts := opts c;
     retries := retries c; max_retries := max_retries c |}.

Definition with_history (h : list Action) (c : AgentController W) : AgentController W :=
  {| agent := agent c; prompts := prompts c; exports := exports c; llm := llm c;
     template := template c; history := h; opts := opts c;
     retries := retries c; max_retries := max_retries c |}.

Definition with_retries (n : nat) (c : AgentController W) : AgentController W :=
  {| agent := agent c; prompts := prompts c; exports := exports c; llm := llm c;
     template := template c; history := history c; opts := opts c;
     retries := n; max_retries := max_retries c |}.

(** *** Methods run on [this] and may throw *)

Definition M (A : Type) : Type :=
  AgentController W -> Outcome A * AgentController W.

Definition ret {A : Type} (a : A) : M A :=
  fun this => (Returned a, this).

Definition throw {A : Type} (err : Thrown) : M A :=
  fun this => (Threw err, this).

Definition bind {A B : Type} (m : M A) (k : A -> M B) : M B :=
  fun this =>
    match m this with
    | (Returned a, this') => k a this'
    | (Threw err, this') => (Threw err, this')
    end.

Definition try_catch {A : Type} (body : M A) (handler : Thrown -> M A) : M A :=
  fun this =>
    match body this with
    | (Returned a, this') => (Returned a, this')
    | (Threw err, this') => handler err this'
    end.

Definition read {A : Type} (field : AgentController W -> A) : M A :=
  fun this => (Returned (field this), this).

Definition update (f : AgentController W -> AgentController W) : M unit :=
  fun this => (Returned tt, f this).

End Controller.

Arguments set_agent_state {W} st a.
Arguments with_agent {W} a c.
Arguments with_llm {W} l c.
Arguments with_history {W} h c.
Arguments with_retries {W} n c.
Arguments ret {W A} a _.
Arguments throw {W A} err _.
Arguments bind {W A B} m k _.
Arguments try_catch {W A} body handler _.
Arguments read {W A} field _.
Arguments update {W} f _.

Declare Scope ctrl_scope.
Delimit Scope ctrl_scope with ctrl.

Notation "x <- m ;; k" := (bind m (fun x => k))
  (at level 61, m at next level, right associativity) : ctrl_scope.
Notation "m ;; k" := (bind m (fun _ => k))
  (at level 61, right associativity) : ctrl_scope.

Local Open Scope ctrl_scope.

(** *** Flags of the entry points *)

Record ControllerFlags (O : Type) : Type := {
  cf_prompts : Prompts;
  cf_openai_key : string;
  cf_agent_options : O;
  cf_allow_exit : option bool
}.

Arguments cf_prompts {O} _.
Arguments cf_openai_key {O} _.
Arguments cf_agent_options {O} _.
Arguments cf_allow_exit {O} _.

Record RunFlags (W : World) : Type := {
  rf_agent : Agent W;
  rf_prompts : Prompts;
  rf_openai_key : string;
  rf_allow_exit : option bool
}.

Arguments rf_agent {W} _.
Arguments rf_prompts {W} _.
Arguments rf_openai_key {W} _.
Arguments rf_allow_exit {W} _.

Section Methods.

Variable W : World.

(** [new AgentController(agent, prompts, llm, opts)]; [opts] defaults to
    [{}]. *)
Definition newAgentController (agent : Agent W) (prompts : Prompts)
    (llm : LLM W) (opts : option AgentControllerOpts) : AgentController W :=
  {| agent := agent;
     prompts := prompts;
     exports := or_else (agent_exports agent) ExportsMap.empty;
     llm := llm;
     template := or_else (agent_template agent) (Naive W);
     history := [];
     opts := or_else opts {| allow_exit := None |};
     retries := 0;
     max_retries := 5 |}.

(** The scope [renderContext] hands to the template. *)
Definition contextScope (this : AgentController W) : Scope :=
  let scope := newScope (prompts this) in
  let scope := ExportsMap.forEach (exports this) (fun d scope => adder d scope) scope in
  if or_else (allow_exit (opts this)) true
  then addNode exit_node scope
  else scope.

Definition renderContext (this : AgentController W) : string :=
  Template.renderContext (template this) (contextScope this).

Definition handleBuiltin (action : Action) : M W unit :=
  let builtin := nth_error (split "." (name (call action))) 1 in
  if option_string_eqb builtin "exit" then
    if Nat.eqb (length (arguments (call action))) 0
    then throw (Exit JsUndefined)
    else throw (Exit (nth 0 (arguments (call action)) JsUndefined))
  else throw (Internal ("unknown builtin '" ++ interpolate builtin ++ "'")).

(** [await this.agent[call_name](...args)]: the agent keeps what the method
    did to it, also when the method throws. *)
Definition invoke (f : Method W) (args : list JsValue) : M W Output :=
  fun this =>
    let '(result, st) := f (agent_state (agent this)) args in
    (result, with_agent (set_agent_state st (agent this)) this).

(** [logger.returns(output)], which runs between the call and the push onto
    the history: [stringify(output)] lets [undefined] and every value with a
    JSON text through; where [JSON.stringify] gives [undefined], reading the
    [length] of the text is the engine's [TypeError], and where it throws,
    that error is thrown. *)
Definition logger_returns (output : Output) : Outcome JsValue :=
  match output with
  | Json value => Returned value
  | Unrendered =>
      Threw (TypeError "Cannot read properties of undefined (reading 'length')")
  | Unserializable message => Threw (TypeError message)
  end.

(** [exports.get] on an [agent.exports] that is undefined is the engine's
    own [TypeError].  [logger.calls] renders the arguments of the reply,
    which are JSON values. *)
Definition doAction (action : Action) : M W unit :=
  exports <- read (fun this => agent_exports (agent this)) ;;
  if startsWith (name (call action)) "builtins." then handleBuiltin action
  else
    match exports with
    | None =>
        throw (TypeError "Cannot read properties of undefined (reading 'get')")
    | Some exports =>
        match ExportsMap.get exports (name (call action)) with
        | None => throw (TypeError (name (call action) ++ " is not a function"))
        | Some export_descriptor =>
            let call_name := property_key export_descriptor in
            fn <- read (fun this => agent_function (agent this) call_name) ;;
            match fn with
            | None => throw (TypeError (name (call action) ++ " is not a function"))
            | Some fn =>
                let args := arguments (call action) in
                output <- invoke fn args ;;
                match logger_returns output with
                | Threw err => throw err
                | Returned output =>
                    let action :=
                      {| call := call action; action_output := Some output |} in
                    update (fun this => with_history (history this ++ [action]) this)
                end
            end
        end
    end.

(** [await this.llm.complete(messages)] *)
Definition exchange (messages : list Message) : M W string :=
  fun this =>
    let '(result, l) := llm_complete W (llm this) messages in
    (result, with_llm l this).

(** The prompt [complete] sends. *)
Definition promptText (prompt : option string) (this : AgentController W) : string :=
  match prompt with
  | Some text => text
  | None =>
      if Nat.eqb (length (history this)) 0 then renderContext this
      else
        let last := nth (length (history this) - 1) (history this)
                      {| call := {| name := ""; reasoning := None; arguments := [] |};
                         action_output := None |} in
        Template.renderOutput (template this) (read_output last)
  end.

Definition complete (prompt : option string) (role : option Role) : M W unit :=
  let role := or_else role system in
  prompt <- read (promptText prompt) ;;
  completion <- exchange [{| msg_role := role; content := prompt |}] ;;
  parsed <- read (fun this => Template.parseResponse (template this) completion) ;;
  match parsed with
  | Threw _ =>
      throw (Feedback ("could not extract JSON from your response: " ++ completion))
  | Returned response =>
      doAction {| call := response; action_output := None |}
  end.

(** [logger.error(err)] reads [err.message], which [null] and [undefined]
    do not have: the engine's [TypeError]. *)
Definition logger_error (err : Thrown) : M W unit :=
  match err with
  | ThrownValue JsNull =>
      throw (TypeError "Cannot read properties of null (reading 'message')")
  | ThrownValue JsUndefined =>
      throw (TypeError "Cannot read properties of undefined (reading 'message')")
  | _ => ret tt
  end.

(** The [catch] block of [tick].  [logger.feedback] reads the message of a
    [Feedback]; [logger.interrupt] and [logger.exit] render an inner error
    and a payload that have a JSON text. *)
Definition tick_catch (err : Thrown) : M W TickResult :=
  this <- read (fun this => this) ;;
  if Nat.leb (max_retries this) (retries this) then throw err
  else
    match err with
    | Feedback message =>
        update (fun this => with_retries (retries this + 1) this) ;;
        ret (ResPending {| prompt := Some message; role := system |})
    | Interrupt inner_error => throw inner_error
    | Internal _ => throw err
    | Exit output => ret (ResExited {| output := output |})
    | NativeError _ _ | ThrownValue _ =>
        logger_error err ;;
        update (fun this => with_retries (retries this + 1) this) ;;
        text <- read (fun this => Template.renderError (template this) err) ;;
        ret (ResPending {| role := system; prompt := Some text |})
    end.

(** [tick(pending = { role: "user" })] *)
Definition tick (pending : option Pending) : M W TickResult :=
  let pending := or_else pending {| role := user; prompt := None |} in
  try_catch
    (complete (prompt pending) (Some (role pending)) ;;
     update (with_retries 0) ;;
     ret (ResPending {| role := user; prompt := None |}))
    tick_catch.

(** [tick.output] *)
Definition output_of (r : TickResult) : JsValue :=
  match r with
  | ResExited e => output e
  | ResPending _ => JsUndefined
  end.

(** The result of a tick read back as the argument of the next one; an object
    without [role] leaves it to the default of [complete]. *)
Definition as_pending (r : TickResult) : Pending :=
  match r with
  | ResPending p => p
  | ResExited _ => {| role := system; prompt := None |}
  end.

(** [runToCompletion]: the loop [while (true)], cut after [fuel] ticks
    ([None] when the run needs more). *)
Fixpoint runToCompletion_from (fuel : nat) (tick_ : option Pending)
    (this : AgentController W) : option (Outcome JsValue * AgentController W) :=
  match fuel with
  | 0 => None
  | S fuel' =>
      match tick tick_ this with
      | (Threw err, this') => Some (Threw err, this')
      | (Returned r, this') =>
          if isExited r then Some (Returned (output_of r), this')
          else runToCompletion_from fuel' (Some (as_pending r)) this'
      end
  end.

Definition runToCompletion (fuel : nat) (this : AgentController W)
    : option (Outcome JsValue * AgentController W) :=
  runToCompletion_from fuel None this.

(** *** Entry points *)

(** [makeController], given the default export of the imported module. *)
Definition makeController {O : Type} (mod_default : option (O -> Agent W))
    (flags : ControllerFlags O) : Outcome (AgentController W) :=
  match mod_default with
  | None =>
      Threw (Internal ("module does not have a default export" ++ nl ++ nl
                       ++ "try adding:" ++ nl ++ nl
                       ++ "  export default () => new MyAgent()"))
  | Some make =>
      let agent := make (cf_agent_options flags) in
      let model := OpenAIChatCompletion W (cf_openai_key flags) in
      Returned (newAgentController agent (cf_prompts flags) model
                  (Some {| allow_exit := cf_allow_exit flags |}))
  end.

(** The controller [run] builds. *)
Definition run_controller (flags : RunFlags W) : AgentController W :=
  let model := OpenAIChatCompletion W (rf_openai_key flags) in
  newAgentController (rf_agent flags) (rf_prompts flags) model None.

Definition run (fuel : nat) (flags : RunFlags W)
    : option (Outcome JsValue * AgentController W) :=
  runToCompletion fuel (run_controller flags).

End Methods.

Arguments newAgentController {W} agent prompts llm opts.
Arguments contextScope {W} this.
Arguments renderContext {W} this.
Arguments handleBuiltin {W} action _.
Arguments invoke {W} f args _.
Arguments doAction {W} action _.
Arguments exchange {W} messages _.
Arguments promptText {W} prompt this.
Arguments complete {W} prompt role _.
Arguments tick_catch {W} err _.
Arguments tick {W} pending _.
Arguments runToCompletion_from {W} fuel tick_ this.
Arguments runToCompletion {W} fuel this.
Arguments makeController {W O} mod_default flags.
Arguments run_controller {W} flags.
Arguments run {W} fuel flags.

(** ** Observations on one tick *)

Section Observations.

Variable W : World.

(** The argument of [tick] after its default has been applied. *)
Definition incoming (pending : option Pending) : Pending :=
  or_else pending {| role := user; prompt := None |}.

(** The message list the tick sends to the model. *)
Definition outgoing (pending : option Pending) (this : AgentController W)
    : list Message :=
  [{| msg_role := role (incoming pending);
      content := promptText (prompt (incoming pending)) this |}].

(** The [await this.complete(prompt, role)] of the tick. *)
Definition attempt (pending : option Pending) : M W unit :=
  complete (prompt (incoming pending)) (Some (role (incoming pending))).

(** The error the [catch] block of the tick receives, if any. *)
Definition caught (pending : option Pending) (this : AgentController W)
    : option Thrown :=
  match fst (attempt pending this) with
  | Threw err => Some err
  | Returned _ => None
  end.

(** The call the model asks for in this tick, when its reply parses. *)
Definition requested (pending : option Pending) (this : AgentController W)
    : option FunctionCall :=
  match exchange (outgoing pending this) this with
  | (Returned completion, this') =>
      match Template.parseResponse (template this') completion with
      | Returned response => Some response
      | Threw _ => None
      end
  | (Threw _, _) => None
  end.

(** The errors the loop answers with a corrective prompt: a [Feedback], or
    an unclassified error whose [message] the logger can read. *)
Definition recoverable (err : Thrown) : bool :=
  match err with
  | Feedback _ | NativeError _ _ => true
  | ThrownValue _ => negb (nullish err)
  | Interrupt _ | Internal _ | Exit _ => false
  end.

(** The loop after [k] ticks that all resolved to a pending value: the
    argument and the controller of the next tick. *)
Fixpoint after (k : nat) (pending : option Pending) (this : AgentController W)
    : option (option Pending * AgentController W) :=
  match k with
  | 0 => Some (pending, this)
  | S k' =>
      match tick pending this with
      | (Returned r, this') =>
          if isExited r then None else after k' (Some (as_pending r)) this'
      | (Threw _, _) => None
      end
  end.

(** Each of the next [k] ticks of the loop, as far as the loop gets, catches
    a recoverable error. *)
Fixpoint streak (k : nat) (pending : option Pending) (this : AgentController W)
    : bool :=
  match k with
  | 0 => true
  | S k' =>
      match caught pending this with
      | Some err =>
          recoverable err &&
          match tick pending this with
          | (Returned r, this') => streak k' (Some (as_pending r)) this'
          | (Threw _, _) => true
          end
      | None => false
      end
  end.

(** The fields neither the model exchange nor a dispatch writes to. *)
Definition frame (this this' : AgentController W) : Prop :=
  retries this' = retries this /\
  max_retries this' = max_retries this /\
  template this' = template this /\
  opts this' = opts this /\
  exports this' = exports this /\
  prompts this' = prompts this.

(** The prompt a recoverable error is turned into. *)
Definition corrective (this : AgentController W) (err : Thrown) : string :=
  match err with
  | Feedback message => message
  | _ => Template.renderError (template this) err
  end.

End Observations.

Arguments frame {W} this this'.
Arguments corrective {W} this err.

Arguments outgoing {W} pending this.
Arguments attempt {W} pending _.
Arguments caught {W} pending this.
Arguments requested {W} pending this.
Arguments after {W} k pending this.
Arguments streak {W} k pending this.

(** What a reply shape is restated by: the two required members of the reply
    object, [name] and [arguments]. *)
Definition restates_reply_shape (text : string) : bool :=
  includes text "name" && includes text "arguments".

(** ** A small world to run the controller in *)

Module Demo.

(** A model client that replays a script, one reply per exchange. *)
Definition replay (script : list (Outcome string)) (messages : list Message)
    : Outcome string * list (Outcome string) :=
  match script with
  | [] => (Threw (NativeError "Error" "no reply left"), [])
  | reply :: script' => (reply, script')
  end.

(** The wire format of [words]: [call <name> <argument>...]. *)
Definition parseWords (text : string) : Outcome FunctionCall :=
  match split " " text with
  | "call" :: callee :: args =>
      Returned {| name := callee; reasoning := None;
                  arguments := map JsString args |}
  | _ => Threw (NativeError "SyntaxError" "expected: call <name> <arguments>")
  end.

Definition describe (err : Thrown) : string :=
  match err with
  | Feedback m => "Feedback: " ++ m
  | Interrupt _ => "Interrupt"
  | Internal m => "Internal: " ++ m
  | Exit _ => "Exit"
  | NativeError n m => n ++ ": " ++ m
  | ThrownValue _ => "(thrown value)"
  end.

Definition renderItem (item : ScopeItem) : string :=
  match item with
  | FromId kind path => kind ++ " " ++ String.concat "." path
  | Direct node => node_fmt node
  end.

Definition words : Template.t :=
  {| Template.renderContext := fun scope =>
       "You may call: " ++ String.concat "; " (map renderItem (scope_items scope))
       ++ ". Reply with: call <name> <arguments>";
     Template.renderOutput := fun v =>
       match v with
       | JsString s => s
       | JsUndefined => "null"
       | _ => "(value)"
       end;
     Template.renderError := fun err =>
       "error: " ++ describe err ++ ". Reply with: call <name> <arguments>";
     Template.parseResponse := parseWords |}.

(** The key of the client is the script it replays, one reply per line
    separated by [|]. *)
Definition world : World :=
  {| LLM := list (Outcome string);
     llm_complete := replay;
     OpenAIChatCompletion := fun key => map Returned (split "|" key);
     AgentState := nat;
     Naive := words |}.

(** An agent with three capabilities: [echo] returns its arguments and
    counts its calls, [fail] throws an ordinary error, [stop] interrupts the
    run; [ghost] is registered but is not a method. *)
Definition methods (key : string) : option (Method world) :=
  if String.eqb key "echo" then
    Some (fun calls args => (Returned (Json (JsArray args)), S calls))
  else if String.eqb key "fail" then
    Some (fun calls _ => (Threw (NativeError "Error" "boom"), calls))
  else if String.eqb key "stop" then
    Some (fun calls _ => (Threw (Interrupt (NativeError "Error" "disk full")), calls))
  else None.

Definition registry : option ExportsMap.t :=
  use "Demo" (use "Demo" (use "Demo" (use "Demo" None "echo") "fail") "stop") "ghost".

Definition demo_agent : Agent world :=
  {| agent_exports := registry;
     agent_template := None;
     agent_function := methods;
     agent_state := 0 |}.

(** A fresh controller whose model will give the replies of [script]. *)
Definition controller (script : list string) : AgentController world :=
  newAgentController demo_agent [] (map Returned script) None.

(** The same controller once the retry budget is used up. *)
Definition exhausted (script : list string) : AgentController world :=
  with_retries 5 (controller script).

End Demo.

(** ** Classes decorated with [use] *)

(** The registry of a class named [class_name] whose methods [keys] carry
    the decorator, applied in the order of the methods. *)
Definition decorate (class_name : string) (keys : list string)
    : option ExportsMap.t :=
  fold_left (use class_name) keys None.

(** The entries the decorator writes for the class [class_name]: the key is
    the property itself and the adder adds its method declaration. *)
Definition decorated (class_name : string) (m : ExportsMap.t) : Prop :=
  Forall (fun kd =>
            property_key (snd kd) = fst kd /\
            forall scope,
              adder (snd kd) scope
              = addFromId "method_decl" [class_name; fst kd] scope) m.

(** No name occurs twice in [keys]. *)
Fixpoint distinct (keys : list string) : bool :=
  match keys with
  | [] => true
  | k :: keys' => negb (existsb (String.eqb k) keys') && distinct keys'
  end.

(** The descriptor the decorator writes for [key]. *)
Definition descriptor (class_name key : string) : ExportDescriptor :=
  {| property_key := key;
     adder := addFromId "method_decl" [class_name; key];
     description := None |}.

(** The item of the scope a decorated method contributes. *)
Definition method_decl (class_name key : string) : ScopeItem :=
  FromId "method_decl" [class_name; key].

(** ** The logger (log.ts) *)

Module Log.

Local Open Scope list_scope.

(** A string of the logger as the engine has it: the sequence of its UTF-16
    code units, which [length], [slice] and [trimEnd] work on. *)
Definition Text : Type := list N.

(** An ASCII literal. *)
Definition text (s : string) : Text :=
  map N_of_ascii (list_ascii_of_string s).

Inductive LogLevel : Type := trace_level | quiet.

Inductive Color : Type := red | magenta | green | cyan | yellow.

(** What the logger takes from the standard library and from the engine:
    the colour functions, [stripColor] and [unicodeWidth] of std, and
    [JSON.stringify] ([None] where it gives [undefined]). *)
Record Std : Type := {
  colors_red : Text -> Text;
  colors_magenta : Text -> Text;
  colors_green : Text -> Text;
  colors_cyan : Text -> Text;
  colors_yellow : Text -> Text;
  colors_gray : Text -> Text;
  colors_dim : Text -> Text;
  colors_bold : Text -> Text;
  colors_stripColor : Text -> Text;
  unicodeWidth : Text -> nat;
  JSON_stringify : JsValue -> option Text
}.

Record Logger : Type := {
  stringified_max_length : nat;
  header_width : nat;
  log_level : LogLevel
}.

(** [export const logger = new Logger()] *)
Definition logger : Logger :=
  {| stringified_max_length := 76; header_width := 5; log_level := quiet |}.

Definition setLogLevel (level : LogLevel) (l : Logger) : Logger :=
  {| stringified_max_length := stringified_max_length l;
     header_width := header_width l;
     log_level := level |}.

Definition getLogLevel (l : Logger) : LogLevel := log_level l.

Definition toLogLevelNum (l : Logger) : nat :=
  match log_level l with
  | trace_level => 0
  | quiet => 1
  end.

(** [" ".repeat(n)] *)
Definition spaces (n : nat) : Text := repeat 32%N n.

(** [s.slice(0, n)] *)
Definition slice0 (n : nat) (s : Text) : Text := firstn n s.

(** The code units [trimEnd] removes: the white space and the line
    terminators of the language (tab, line feed, vertical tab, form feed,
    carriage return, space, no-break space, U+1680, U+2000 to U+200A,
    U+2028, U+2029, U+202F, U+205F, U+3000 and U+FEFF). *)
Definition isWhiteSpace (ch : N) : bool :=
  existsb (N.eqb ch)
    [9; 10; 11; 12; 13; 32; 160; 5760; 8232; 8233; 8239; 8287; 12288; 65279]%N
  || (N.leb 8192 ch && N.leb ch 8202).

(** [s.trimEnd()] *)
Fixpoint trimEnd (s : Text) : Text :=
  match s with
  | [] => []
  | ch :: rest =>
      match trimEnd rest with
      | [] => if isWhiteSpace ch then [] else [ch]
      | kept => ch :: kept
      end
  end.

(** [parts.join(sep)] *)
Fixpoint join (sep : Text) (parts : list Text) : Text :=
  match parts with
  | [] => []
  | [part] => part
  | part :: parts' => part ++ sep ++ join sep parts'
  end.

(** [x || ""] on a string. *)
Definition or_empty (x : Text) : Text :=
  match x with
  | [] => []
  | _ => x
  end.

(** A template literal on a text that may be [undefined]. *)
Definition interpolated (x : option Text) : Text :=
  match x with
  | Some t => t
  | None => text "undefined"
  end.

Section WithStd.

Variable std : Std.

Definition toColorFn (color : Color) : Text -> Text :=
  match color with
  | red => colors_red std
  | magenta => colors_magenta std
  | green => colors_green std
  | cyan => colors_cyan std
  | yellow => colors_yellow std
  end.

(** The header as [trace] pads it. *)
Definition padded (l : Logger) (header : Text) : Text :=
  let width := unicodeWidth std (colors_stripColor std header) in
  let pad := (Z.of_nat (header_width l) - Z.of_nat width)%Z in
  spaces (if (0 <=? pad)%Z then Z.to_nat pad else 0) ++ header.

(** [trace(header, message)]: the line written to the error stream, if any. *)
Definition trace (l : Logger) (header message : Text) : option Text :=
  let header := padded l header in
  if Nat.leb (toLogLevelNum l) 0
  then Some (colors_dim std (text "trace:") ++ text " "
             ++ or_empty (colors_bold std header) ++ text " " ++ message)
  else None.

(** The glyph of [arrowed] is U+2B91. *)
Definition arrowed (l : Logger) (color : Color) (header message : Text)
    : option Text :=
  let color_fn := toColorFn color in
  trace l (color_fn [11153%N])
        (text " " ++ colors_bold std (color_fn header) ++ text " " ++ message).

(** [calls(name, args)], on arguments that have a JSON text. *)
Definition calls (l : Logger) (callee : Text) (args : list JsValue)
    : option Text :=
  let pretty_fn := colors_cyan std (colors_bold std callee) in
  let pretty_args :=
    join (text ", ")
      (map (fun arg => colors_dim std (interpolated (JSON_stringify std arg))) args) in
  trace l (text "call") (pretty_fn ++ text "(" ++ pretty_args ++ text ")").

(** [stringify(value)]; reading [length] of an undefined text is the
    engine's [TypeError]. *)
Definition stringify (l : Logger) (value : JsValue) : Outcome Text :=
  match value with
  | JsUndefined => Returned (text "null")
  | _ =>
      match JSON_stringify std value with
      | None =>
          Threw (TypeError "Cannot read properties of undefined (reading 'length')")
      | Some output_str =>
          if Nat.ltb (stringified_max_length l) (length output_str)
          then Returned (trimEnd (slice0 (stringified_max_length l) output_str)
                         ++ text "...")
          else Returned output_str
      end
  end.

Definition returns (l : Logger) (value : JsValue) : Outcome (option Text) :=
  match stringify l value with
  | Threw err => Threw err
  | Returned pretty =>
      let pretty_output := colors_dim std pretty in
      Returned (arrowed l magenta (text "returns") pretty_output)
  end.

(** [feedback(err)], on [err.message]. *)
Definition feedback (l : Logger) (message : Text) : option Text :=
  arrowed l green (text "feedback") message.

(** [interrupt(err)], on [err.inner_error]. *)
Definition interrupt (l : Logger) (inner_error : JsValue)
    : Outcome (option Text) :=
  match stringify l inner_error with
  | Threw err => Threw err
  | Returned pretty =>
      Returned (trace l (colors_yellow std (text "throw")) (colors_dim std pretty))
  end.

(** [error(err)], on [err.message]. *)
Definition error (l : Logger) (message : Text) : option Text :=
  trace l (colors_red std (text "error")) message.

(** [exit(err)], on [err.value]. *)
Definition exit (l : Logger) (value : JsValue) : Outcome (option Text) :=
  match stringify l value with
  | Threw err => Threw err
  | Returned pretty =>
      Returned (trace l (colors_green std (text "exit")) (colors_dim std pretty))
  end.

(** The glyph of [thought] is U+256D. *)
Definition thought (l : Logger) (msg : Text) : option Text :=
  trace l (colors_gray std [9581%N]) (colors_gray std msg).

(** [eprint(msg, header = "kotto", color = "cyan")]: the line written. *)
Definition eprint (msg header : option Text) (color : option Color) : Text :=
  let color := or_else color cyan in
  let header := or_else header (text "kotto") in
  let color_fn := toColorFn color in
  color_fn header ++ text ": " ++ or_empty (or_else msg []).

End WithStd.

(** The double quote. *)
Definition quote : ascii := ascii_of_nat 34.

(** A standard library without colours, where every code unit has width
    one; its [JSON_stringify] is a stand-in, exact on [undefined], [null],
    booleans and strings without characters to escape. *)
Definition plain : Std :=
  {| colors_red := fun s => s;
     colors_magenta := fun s => s;
     colors_green := fun s => s;
     colors_cyan := fun s => s;
     colors_yellow := fun s => s;
     colors_gray := fun s => s;
     colors_dim := fun s => s;
     colors_bold := fun s => s;
     colors_stripColor := fun s => s;
     unicodeWidth := @length N;
     JSON_stringify := fun v =>
       match v with
       | JsUndefined => None
       | JsNull => Some (text "null")
       | JsBool true => Some (text "true")
       | JsBool false => Some (text "false")
       | JsString s => Some (text (String quote s ++ String quote "")%string)
       | JsNumber _ => Some (text "0")
       | JsArray _ => Some (text "[]")
       | JsObject _ => Some (text "{}")
       end |}.

End Log.

(** ** More of the small world *)

Module Samples.


(** An agent that decorates a method named like a built-in. *)
Definition shadow_agent : Agent Demo.world :=
  {| agent_exports := use "Demo" None "builtins.echo";
     agent_template := None;
     agent_function := fun key =>
       if String.eqb key "builtins.echo" then Demo.methods "echo" else None;
     agent_state := 0 |}.

(** An agent whose capabilities misbehave: [hurl] does [throw null],
    [closure] returns a function and [big] returns a [BigInt]. *)
Definition odd_methods (key : string) : option (Method Demo.world) :=
  if String.eqb key "hurl" then
    Some (fun calls _ => (Threw (ThrownValue JsNull), S calls))
  else if String.eqb key "closure" then
    Some (fun calls _ => (Returned Unrendered, S calls))
  else if String.eqb key "big" then
    Some (fun calls _ =>
            (Returned (Unserializable "Do not know how to serialize a BigInt"),
             S calls))
  else None.

Definition odd_agent : Agent Demo.world :=
  {| agent_exports := decorate "Odd" ["hurl"; "closure"; "big"];
     agent_template := None;
     agent_function := odd_methods;
     agent_state := 0 |}.

(** A fresh controller of [odd_agent] whose model will give the replies of
    [script]. *)
Definition odd (script : list string) : AgentController Demo.world :=
  newAgentController odd_agent [] (map Returned script) None.

(** The controller of [Demo] built with [allow_exit: false]. *)
Definition hidden_exit (script : list string) : AgentController Demo.world :=
  newAgentController Demo.demo_agent [] (map Returned script)
    (Some {| allow_exit := Some false |}).

(** A text of eighty characters: seventy digits, six spaces and a tail. *)
Definition long_text : string :=
  "0123456789012345678901234567890123456789012345678901234567890123456789      tail".

(** A text of eighty digits. *)
Definition dense_text : string :=
  "01234567890123456789012345678901234567890123456789012345678901234567890123456789".

End Samples.

(** * Properties *)

Section Properties.

Variable W : World.

Implicit Types (this : AgentController W) (pending : option Pending).
Implicit Types (err : Thrown) (action : Action).

(** ** What a step leaves alone *)

Lemma frame_refl this : frame this this.
Proof. repeat split. Qed.

Lemma frame_trans this1 this2 this3 :
  frame this1 this2 -> frame this2 this3 -> frame this1 this3.
Proof.
  unfold frame. intros (a1 & a2 & a3 & a4 & a5 & a6) (b1 & b2 & b3 & b4 & b5 & b6).
  repeat split; congruence.
Qed.

Lemma handleBuiltin_throws action this :
  exists err, handleBuiltin action this = (Threw err, this).
Proof.
  unfold handleBuiltin.
  destruct (option_string_eqb _ _).
  - destruct (Nat.eqb _ 0); eexists; reflexivity.
  - eexists; reflexivity.
Qed.

Lemma exchange_frame messages this :
  frame this (snd (exchange messages this)) /\
  history (snd (exchange messages this)) = history this /\
  agent (snd (exchange messages this)) = agent this.
Proof.
  unfold exchange. destruct (llm_complete W (llm this) messages) as [result l].
  simpl. repeat split.
Qed.

(** A dispatch either throws and leaves the history as it was, or returns and
    has appended the action with its output. *)
Lemma doAction_cases action this :
  frame this (snd (doAction action this)) /\
  match fst (doAction action this) with
  | Threw _ => history (snd (doAction action this)) = history this
  | Returned _ =>
      startsWith (name (call action)) "builtins." = false /\
      exists v, history (snd (doAction action this))
                = (history this ++ [{| call := call action; action_output := Some v |}])%list
  end.
Proof.
  unfold doAction, bind, read.
  destruct (startsWith (name (call action)) "builtins.") eqn:Hb.
  - destruct (handleBuiltin_throws action this) as [err ->]. simpl.
    split; [apply frame_refl | reflexivity].
  - destruct (agent_exports (agent this)) as [m|]; simpl;
      [|split; [apply frame_refl | reflexivity]].
    destruct (ExportsMap.get m (name (call action))) as [d|]; simpl;
      [|split; [apply frame_refl | reflexivity]].
    destruct (agent_function (agent this) (property_key d)) as [fn|]; simpl;
      [|split; [apply frame_refl | reflexivity]].
    unfold invoke, update, throw.
    destruct (fn (agent_state (agent this)) (arguments (call action)))
      as [[[v| |message]|err] st]; simpl.
    + split; [repeat split | split; [reflexivity | exists v; reflexivity]].
    + split; [repeat split | reflexivity].
    + split; [repeat split | reflexivity].
    + split; [repeat split | reflexivity].
Qed.

(** [complete] written out on the reply of the model. *)
Lemma complete_unfold (text : option string) (r : option Role) this :
  complete text r this =
  match exchange [{| msg_role := or_else r system; content := promptText text this |}] this with
  | (Returned completion, this') =>
      match Template.parseResponse (template this') completion with
      | Threw _ =>
          (Threw (Feedback ("could not extract JSON from your response: " ++ completion)),
           this')
      | Returned response =>
          doAction {| call := response; action_output := None |} this'
      end
  | (Threw err, this') => (Threw err, this')
  end.
Proof.
  unfold complete, bind, read, throw.
  destruct (exchange _ this) as [[completion|err] this']; [|reflexivity].
  destruct (Template.parseResponse (template this') completion); reflexivity.
Qed.

Lemma complete_cases (text : option string) (r : option Role) this :
  frame this (snd (complete text r this)) /\
  match fst (complete text r this) with
  | Threw _ => history (snd (complete text r this)) = history this
  | Returned _ =>
      exists a, history (snd (complete text r this)) = (history this ++ [a])%list /\
                action_output a <> None
  end.
Proof.
  rewrite complete_unfold.
  pose proof (exchange_frame
                [{| msg_role := or_else r system; content := promptText text this |}]
                this) as (Hf & Hh & _).
  destruct (exchange _ this) as [[completion|err] this']; simpl in *;
    [|split; assumption].
  destruct (Template.parseResponse (template this') completion) as [response|e];
    simpl; [|split; assumption].
  pose proof (doAction_cases {| call := response; action_output := None |} this')
    as (Hf' & Hcase).
  split; [eapply frame_trans; eassumption|].
  destruct (fst (doAction _ this')).
  - destruct Hcase as (_ & v & Hv). eexists. rewrite Hv, Hh.
    split; [reflexivity | discriminate].
  - congruence.
Qed.

(** ** The two halves of [tick] *)

Lemma tick_unfold pending this :
  tick pending this =
  match attempt pending this with
  | (Returned _, this') =>
      (Returned (ResPending {| role := user; prompt := None |}), with_retries 0 this')
  | (Threw err, this') => tick_catch err this'
  end.
Proof.
  unfold tick, attempt, incoming, try_catch, bind, update, ret.
  destruct (complete _ _ this) as [[[]|err] this']; reflexivity.
Qed.

Lemma tick_catch_exhausted err this :
  max_retries this <= retries this -> tick_catch err this = (Threw err, this).
Proof.
  intros H. unfold tick_catch, bind, read.
  rewrite (proj2 (Nat.leb_le _ _) H). reflexivity.
Qed.

Lemma tick_catch_budget err this :
  retries this < max_retries this ->
  tick_catch err this =
  match err with
  | Feedback message =>
      (Returned (ResPending {| role := system; prompt := Some message |}),
       with_retries (retries this + 1) this)
  | Interrupt inner_error => (Threw inner_error, this)
  | Internal _ => (Threw err, this)
  | Exit v => (Returned (ResExited {| output := v |}), this)
  | NativeError _ _ =>
      (Returned (ResPending {| role := system;
                               prompt := Some (Template.renderError (template this) err) |}),
       with_retries (retries this + 1) this)
  | ThrownValue JsNull =>
      (Threw (TypeError "Cannot read properties of null (reading 'message')"), this)
  | ThrownValue JsUndefined =>
      (Threw (TypeError "Cannot read properties of undefined (reading 'message')"), this)
  | ThrownValue _ =>
      (Returned (ResPending {| role := system;
                               prompt := Some (Template.renderError (template this) err) |}),
       with_retries (retries this + 1) this)
  end.
Proof.
  intros H. unfold tick_catch, bind, read.
  rewrite (proj2 (Nat.leb_gt _ _) H).
  destruct err as [| | | | |thrown]; try reflexivity.
  destruct thrown; reflexivity.
Qed.

Lemma attempt_frame pending this :
  frame this (snd (attempt pending this)).
Proof. unfold attempt. apply complete_cases. Qed.

Lemma caught_attempt pending this err :
  caught pending this = Some err ->
  exists this', attempt pending this = (Threw err, this') /\ frame this this' /\
                history this' = history this.
Proof.
  unfold caught. intros H.
  pose proof (attempt_frame pending this) as Hf.
  pose proof (complete_cases (prompt (incoming pending))
                (Some (role (incoming pending))) this) as (_ & Hh).
  fold (attempt pending this) in Hh.
  destruct (attempt pending this) as [[u|e] this']; simpl in *; [discriminate|].
  injection H as ->. exists this'. auto.
Qed.

(** The tick written out on the call the model asked for. *)
Lemma attempt_requested pending this response :
  requested pending this = Some response ->
  exists this', frame this this' /\ history this' = history this /\
                agent this' = agent this /\
                attempt pending this
                = doAction {| call := response; action_output := None |} this'.
Proof.
  unfold requested, attempt, outgoing. intros H. rewrite complete_unfold. simpl.
  pose proof (exchange_frame
                [{| msg_role := role (incoming pending);
                    content := promptText (prompt (incoming pending)) this |}]
                this) as (Hf & Hh & Ha).
  destruct (exchange _ this) as [[completion|err] this']; [|discriminate].
  simpl in *.
  destruct (Template.parseResponse (template this') completion) as [resp|e];
    [|discriminate].
  injection H as ->. exists this'. auto.
Qed.

(** A tick whose [complete] returns has dispatched a call of the model. *)
Lemma attempt_returns pending this :
  fst (attempt pending this) = Returned tt ->
  exists response, requested pending this = Some response.
Proof.
  unfold requested, attempt, outgoing. rewrite complete_unfold. simpl or_else.
  destruct (exchange _ this) as [[completion|err] this']; [|discriminate].
  destruct (Template.parseResponse (template this') completion) as [resp|e];
    [|discriminate].
  intros _. exists resp. reflexivity.
Qed.

(** ** Recoverable errors and the retry budget *)

Lemma tick_converts pending this err :
  caught pending this = Some err ->
  recoverable err = true ->
  retries this < max_retries this ->
  exists this',
    tick pending this
    = (Returned (ResPending {| role := system; prompt := Some (corrective this err) |}),
       this') /\
    retries this' = retries this + 1 /\
    max_retries this' = max_retries this /\
    history this' = history this.
Proof.
  intros Hc Hr Hb.
  destruct (caught_attempt _ _ _ Hc) as (this1 & Ha & (Fr & Fm & Ft & _) & Hh).
  rewrite tick_unfold, Ha, tick_catch_budget by lia.
  destruct err as [| | | | |thrown]; try discriminate;
    try (destruct thrown; try discriminate);
    simpl; rewrite ?Ft, Fr; eexists; repeat split; assumption.
Qed.

Lemma tick_reraises pending this err :
  caught pending this = Some err ->
  max_retries this <= retries this ->
  exists this',
    tick pending this = (Threw err, this') /\
    retries this' = retries this /\
    history this' = history this.
Proof.
  intros Hc Hb.
  destruct (caught_attempt _ _ _ Hc) as (this1 & Ha & (Fr & Fm & _) & Hh).
  rewrite tick_unfold, Ha, tick_catch_exhausted by lia.
  exists this1. auto.
Qed.

Lemma streak_within_budget k : forall pending this,
  streak k pending this = true ->
  retries this + k <= max_retries this ->
  exists pending' this',
    after k pending this = Some (pending', this') /\
    retries this' = retries this + k /\
    max_retries this' = max_retries this /\
    (0 < k -> exists text, pending' = Some {| role := system; prompt := Some text |}).
Proof.
  induction k as [|k IH]; intros pending this Hs Hb.
  - exists pending, this. simpl. repeat split; try lia.
  - simpl in Hs. destruct (caught pending this) as [err|] eqn:Hc; [|discriminate].
    apply andb_prop in Hs. destruct Hs as [Hr Hs].
    destruct (tick_converts _ _ _ Hc Hr) as (this1 & Ht & Hr1 & Hm1 & _); [lia|].
    rewrite Ht in Hs. simpl. rewrite Ht. simpl in *.
    destruct (IH _ _ Hs) as (pending' & this' & Ha & Hr' & Hm' & Hp); [lia|].
    exists pending', this'. repeat split; try assumption; try lia; try congruence.
    intros _. destruct k as [|k'].
    + simpl in Ha. injection Ha as <- _. eexists. reflexivity.
    + apply Hp. lia.
Qed.

Lemma streak_split n m : forall pending this,
  streak (n + m) pending this = true ->
  streak n pending this = true /\
  forall pending' this',
    after n pending this = Some (pending', this') -> streak m pending' this' = true.
Proof.
  induction n as [|n IH]; intros pending this Hs.
  - simpl. split; [reflexivity|]. intros ? ? [= <- <-]. exact Hs.
  - simpl in *. destruct (caught pending this) as [err|]; [|discriminate].
    apply andb_prop in Hs. destruct Hs as [Hr Hs]. rewrite Hr. simpl.
    destruct (tick pending this) as [[r|e] this1].
    + destruct (IH _ _ Hs) as [H1 H2]. split; [exact H1|].
      intros pending' this'. destruct (isExited r); [discriminate|]. apply H2.
    + split; [reflexivity | discriminate].
Qed.

(** Within the budget every recoverable error caught by a tick adds one to
    [retries] and comes back as a pending corrective prompt of role
    [system]; caught when [retries >= max_retries] it is thrown again as it
    is.  So, from [retries = 0], a run of [k <= max_retries] consecutive
    recoverable errors leaves the loop running with [retries = k], and the
    error after [max_retries] of them leaves [tick]; [max_retries] is 5 in
    every controller the constructor builds. *)
Lemma retry_budget :
  (forall pending this err,
      caught pending this = Some err -> recoverable err = true ->
      retries this < max_retries this ->
      exists this',
        tick pending this
        = (Returned (ResPending {| role := system;
                                   prompt := Some (corrective this err) |}), this') /\
        retries this' = retries this + 1) /\
  (forall pending this err,
      caught pending this = Some err -> recoverable err = true ->
      max_retries this <= retries this ->
      exists this', tick pending this = (Threw err, this') /\
                    retries this' = retries this) /\
  (forall k pending this,
      retries this = 0 -> k <= max_retries this ->
      streak k pending this = true ->
      exists pending' this',
        after k pending this = Some (pending', this') /\ retries this' = k /\
        (0 < k -> exists text,
            pending' = Some {| role := system; prompt := Some text |})) /\
  (forall pending this,
      retries this = 0 ->
      streak (S (max_retries this)) pending this = true ->
      exists pending' this' err this'',
        after (max_retries this) pending this = Some (pending', this') /\
        caught pending' this' = Some err /\ recoverable err = true /\
        tick pending' this' = (Threw err, this'')) /\
  (forall agent index model o,
      max_retries (@newAgentController W agent index model o) = 5 /\
      retries (@newAgentController W agent index model o) = 0).
Proof.
  split; [|split; [|split; [|split]]].
  - intros pending this err Hc Hr Hb.
    destruct (tick_converts _ _ _ Hc Hr Hb) as (this' & Ht & Hr' & _).
    exists this'. auto.
  - intros pending this err Hc _ Hb.
    destruct (tick_reraises _ _ _ Hc Hb) as (this' & Ht & Hr' & _).
    exists this'. auto.
  - intros k pending this H0 Hk Hs.
    destruct (streak_within_budget k _ _ Hs) as (pending' & this' & Ha & Hr & _ & Hp);
      [lia|].
    exists pending', this'. repeat split; [assumption | lia | assumption].
  - intros pending this H0 Hs.
    replace (S (max_retries this)) with (max_retries this + 1) in Hs by lia.
    destruct (streak_split _ _ _ _ Hs) as [Hpre Hlast].
    destruct (streak_within_budget _ _ _ Hpre) as (pending' & this' & Ha & Hr & Hm & _);
      [lia|].
    specialize (Hlast _ _ Ha). simpl in Hlast.
    destruct (caught pending' this') as [err|] eqn:Hc; [|discriminate].
    apply andb_prop in Hlast. destruct Hlast as [Hrec _].
    destruct (tick_reraises _ _ _ Hc) as (this'' & Ht & _); [lia|].
    exists pending', this', err, this''. auto.
  - intros. split; reflexivity.
Qed.

(** C1, on the code: an unclassified exception that is [null] or
    [undefined], as after [throw null] in a capability, is not converted
    although budget is left: [logger.error(err)] fails on reading
    [err.message] before the counter is touched, so the tick throws that
    [TypeError], nothing pending is returned and [retries] stays as it
    was. *)
Theorem C1_thrown_null_not_converted pending this err :
  caught pending this = Some err ->
  nullish err = true ->
  retries this < max_retries this ->
  unclassified err = true /\
  exists this',
    tick pending this
    = (Threw (TypeError
                ("Cannot read properties of "
                 ++ match err with
                    | ThrownValue JsNull => "null"
                    | _ => "undefined"
                    end
                 ++ " (reading 'message')")), this') /\
    (forall r this'', tick pending this <> (Returned r, this'')) /\
    retries this' = retries this /\
    history this' = history this.
Proof.
  intros Hc Hn Hb.
  destruct (caught_attempt _ _ _ Hc) as (this1 & Ha & (Fr & Fm & _) & Hh).
  rewrite tick_unfold, Ha, tick_catch_budget by lia.
  destruct err as [| | | | |thrown]; try discriminate.
  destruct thrown; try discriminate;
    (split; [reflexivity|]); exists this1;
    (split; [reflexivity|]); (split; [discriminate|]); auto.
Qed.

(** ** A successful tick *)

(** C2: when [complete] returns, the model has asked for a call that is not
    a built-in and the capability has returned; the tick resolves to the
    pending value [{ role: "user" }] without a prompt, [retries] is 0 and the
    history is one action longer: the call with its output. *)
Theorem C2_successful_tick pending this :
  fst (attempt pending this) = Returned tt ->
  exists this' response v,
    requested pending this = Some response /\
    startsWith (name response) "builtins." = false /\
    tick pending this
    = (Returned (ResPending {| role := user; prompt := None |}), this') /\
    retries this' = 0 /\
    length (history this') = length (history this) + 1 /\
    history this'
    = (history this ++ [{| call := response; action_output := Some v |}])%list.
Proof.
  intros Hok.
  destruct (attempt_returns _ _ Hok) as (response & Hreq).
  destruct (attempt_requested _ _ _ Hreq) as (this1 & _ & Hh & _ & Ha).
  pose proof (doAction_cases {| call := response; action_output := None |} this1)
    as (_ & Hcase).
  rewrite <- Ha in Hcase. rewrite Hok in Hcase. simpl in Hcase.
  destruct Hcase as (Hnb & v & Hv).
  exists (with_retries 0 (snd (attempt pending this))), response, v.
  rewrite tick_unfold.
  destruct (attempt pending this) as [o this2]. simpl in Hok, Hv |- *. subst o.
  repeat split; try assumption.
  - rewrite Hv, length_app, Hh. reflexivity.
  - rewrite Hv, Hh. reflexivity.
Qed.

(** ** Errors caught once the budget is used up *)

(** C10: in a tick entered with [retries >= max_retries], whatever
    [complete] throws, of any class, leaves [tick] as it was caught, with
    the controller as [complete] left it; the tick resolves to no value. *)
Theorem C10_exhausted_rethrows pending this err :
  max_retries this <= retries this ->
  caught pending this = Some err ->
  tick pending this = (Threw err, snd (attempt pending this)) /\
  forall r this', tick pending this <> (Returned r, this').
Proof.
  intros Hb Hc.
  destruct (caught_attempt _ _ _ Hc) as (this1 & Ha & (Fr & Fm & _) & _).
  rewrite tick_unfold, Ha, tick_catch_exhausted by lia.
  split; [reflexivity | discriminate].
Qed.

(** ** Dispatch *)

Lemma split_nonempty sep s : split sep s <> [].
Proof.
  destruct s as [|ch rest]; simpl; [discriminate|].
  destruct (Ascii.eqb ch sep); [discriminate|].
  destruct (split sep rest); discriminate.
Qed.

(** The built-in a name [builtins.<x>] selects is the part of [x] before its
    first dot. *)
Lemma builtin_segment x :
  nth_error (split "." ("builtins." ++ x)) 1 = Some (hd "" (split "." x)).
Proof.
  simpl. pose proof (split_nonempty "." x) as Hne.
  destruct (split "." x); [contradiction | reflexivity].
Qed.

Lemma startsWith_app p s : startsWith (p ++ s) p = true.
Proof.
  induction p as [|a p IH]; simpl; [reflexivity|].
  rewrite Ascii.eqb_refl. exact IH.
Qed.

Lemma doAction_unregistered action this m :
  startsWith (name (call action)) "builtins." = false ->
  agent_exports (agent this) = Some m ->
  (ExportsMap.get m (name (call action)) = None \/
   exists d, ExportsMap.get m (name (call action)) = Some d /\
             agent_function (agent this) (property_key d) = None) ->
  doAction action this
  = (Threw (TypeError (name (call action) ++ " is not a function")), this).
Proof.
  intros Hb Hm Hun. unfold doAction, bind, read. rewrite Hb, Hm.
  destruct Hun as [-> | (d & -> & ->)]; reflexivity.
Qed.

Lemma doAction_builtin action this :
  startsWith (name (call action)) "builtins." = true ->
  doAction action this = handleBuiltin action this.
Proof.
  intros Hb. unfold doAction, bind, read. rewrite Hb. reflexivity.
Qed.

(** C3, as the code has it: a call of a name that is not registered, or
    whose registered key is not a method of the agent, throws a plain
    [TypeError] with the message [<name> is not a function]: an instance of
    neither [Feedback] nor [Internal].  Within the budget the tick resolves
    to [{ role: "system", prompt: renderError(err) }] and adds one to
    [retries]. *)
Theorem C3_unregistered_call pending this response m :
  requested pending this = Some response ->
  startsWith (name response) "builtins." = false ->
  agent_exports (agent this) = Some m ->
  (ExportsMap.get m (name response) = None \/
   exists d, ExportsMap.get m (name response) = Some d /\
             agent_function (agent this) (property_key d) = None) ->
  retries this < max_retries this ->
  let err := TypeError (name response ++ " is not a function") in
  caught pending this = Some err /\
  instanceofFeedback err = false /\
  instanceofInternal err = false /\
  exists this',
    tick pending this
    = (Returned (ResPending {| role := system;
                               prompt := Some (Template.renderError (template this) err) |}),
       this') /\
    retries this' = retries this + 1 /\
    history this' = history this.
Proof.
  intros Hreq Hb Hm Hun Hbudget err.
  destruct (attempt_requested _ _ _ Hreq) as (this1 & (Fr & Fm & Ft & _) & Hh & Hag & Ha).
  rewrite (doAction_unregistered {| call := response; action_output := None |} this1 m)
    in Ha; [|assumption|rewrite Hag; assumption|rewrite Hag; assumption].
  simpl in Ha. fold err in Ha.
  split; [unfold caught; rewrite Ha; reflexivity|].
  split; [reflexivity|]. split; [reflexivity|].
  rewrite tick_unfold, Ha, tick_catch_budget by lia.
  simpl. rewrite Ft, Fr. eexists. repeat split. assumption.
Qed.

(** C4, as the code has it: within the budget the call [builtins.exit]
    without arguments makes the tick resolve to [Exited] with an undefined
    output, and with arguments to [Exited] with the first of them; [retries]
    and the history stay as they were. *)
Theorem C4_exit_within_budget pending this response :
  requested pending this = Some response ->
  name response = "builtins.exit" ->
  retries this < max_retries this ->
  exists out this',
    tick pending this = (Returned (ResExited {| output := out |}), this') /\
    (arguments response = [] -> out = JsUndefined) /\
    (forall v rest, arguments response = v :: rest -> out = v) /\
    retries this' = retries this /\
    history this' = history this.
Proof.
  intros Hreq Hname Hbudget.
  destruct (attempt_requested _ _ _ Hreq) as (this1 & (Fr & Fm & _) & Hh & _ & Ha).
  rewrite doAction_builtin in Ha by (simpl; rewrite Hname; reflexivity).
  unfold handleBuiltin in Ha. simpl in Ha. rewrite Hname in Ha. simpl in Ha.
  rewrite tick_unfold, Ha.
  destruct (arguments response) as [|v rest]; simpl;
    rewrite tick_catch_budget by lia; eexists; exists this1;
    (split; [reflexivity|]); repeat split; try assumption; try discriminate;
    try reflexivity.
  intros v' rest' [= <- _]. reflexivity.
Qed.

(** C5, as the code has it: a call [builtins.<x>] where the part of [x]
    before its first dot is not [exit] throws [Internal]; the tick throws it
    on for every value of [retries], and neither [retries] nor the history
    changes. *)
Theorem C5_unknown_builtin pending this response x :
  requested pending this = Some response ->
  name response = "builtins." ++ x ->
  hd "" (split "." x) <> "exit" ->
  exists this',
    tick pending this
    = (Threw (Internal ("unknown builtin '" ++ hd "" (split "." x) ++ "'")), this') /\
    retries this' = retries this /\
    history this' = history this.
Proof.
  intros Hreq Hname Hseg.
  destruct (attempt_requested _ _ _ Hreq) as (this1 & (Fr & Fm & _) & Hh & _ & Ha).
  rewrite doAction_builtin in Ha
    by (simpl; rewrite Hname; apply (startsWith_app "builtins." x)).
  unfold handleBuiltin in Ha. cbn [call] in Ha. rewrite Hname in Ha.
  rewrite builtin_segment in Ha. unfold option_string_eqb, interpolate in Ha.
  rewrite (proj2 (String.eqb_neq _ _) Hseg) in Ha. unfold throw in Ha.
  rewrite tick_unfold, Ha. exists this1.
  destruct (Nat.leb_spec (max_retries this1) (retries this1)).
  - rewrite tick_catch_exhausted by assumption. auto.
  - rewrite tick_catch_budget by assumption. auto.
Qed.

(** C6, as the code has it: when the reply of the model does not parse, the
    failure becomes a [Feedback] and, within the budget, the tick resolves to
    [{ role: "system" }] with the prompt
    [could not extract JSON from your response: <completion>]; [retries]
    grows by exactly one and the history stays as it was. *)
Theorem C6_parse_failure pending this completion e :
  fst (exchange (outgoing pending this) this) = Returned completion ->
  Template.parseResponse (template this) completion = Threw e ->
  retries this < max_retries this ->
  caught pending this
  = Some (Feedback ("could not extract JSON from your response: " ++ completion)) /\
  exists this',
    tick pending this
    = (Returned (ResPending
                   {| role := system;
                      prompt := Some ("could not extract JSON from your response: "
                                      ++ completion) |}), this') /\
    retries this' = retries this + 1 /\
    history this' = history this.
Proof.
  intros Hex Hparse Hbudget.
  pose proof (exchange_frame (outgoing pending this) this) as ((Fr & Fm & Ft & _) & Hh & _).
  destruct (exchange (outgoing pending this) this) as [o this1] eqn:Hex'.
  simpl in Hex, Fr, Fm, Ft, Hh. subst o. rename Hex' into Hex.
  assert (Ha : attempt pending this
               = (Threw (Feedback ("could not extract JSON from your response: "
                                   ++ completion)), this1)).
  { unfold attempt. rewrite complete_unfold. simpl or_else.
    unfold outgoing in Hex. rewrite Hex, Ft, Hparse. reflexivity. }
  split; [unfold caught; rewrite Ha; reflexivity|].
  rewrite tick_unfold, Ha, tick_catch_budget by lia.
  eexists. split; [reflexivity|]. simpl. split; [lia | assumption].
Qed.


(** ** The values a tick resolves to *)

Lemma isExited_spec (r : TickResult) :
  isExited r = true <-> exists e, r = ResExited e.
Proof.
  split.
  - destruct r as [e|[ro [text|]]]; try discriminate. intros _. exists e. reflexivity.
  - intros [e ->]. reflexivity.
Qed.

Lemma isPending_spec (r : TickResult) :
  isPending r = true <->
  exists ro text, r = ResPending {| role := ro; prompt := Some text |}.
Proof.
  split.
  - destruct r as [e|[ro [text|]]]; try discriminate. intros _.
    exists ro, text. reflexivity.
  - intros (ro & text & ->). reflexivity.
Qed.

(** C8, on the code: the value of a successful tick, [{ role: "user" }], is
    a [Pending] that [isPending] does not recognise, so it satisfies neither
    discriminator. *)
Theorem C8_success_value_not_pending pending this :
  fst (attempt pending this) = Returned tt ->
  exists r this',
    tick pending this = (Returned r, this') /\
    r = ResPending {| role := user; prompt := None |} /\
    isPending r = false /\
    isExited r = false.
Proof.
  intros Ha. rewrite tick_unfold.
  destruct (attempt pending this) as [o this1]. simpl in Ha. subst o.
  eexists. eexists. split; [reflexivity|]. repeat split.
Qed.

(** ** The entry points *)

(** C9, on the code: [run] builds its controller without options, whatever
    [allow_exit] it was given, so the scope of the context always has the
    node of [builtins.exit]; [makeController] does hand the flag on. *)
Theorem C9_run_drops_allow_exit (flags : RunFlags W) :
  rf_allow_exit flags = Some false ->
  opts (run_controller flags) = {| allow_exit := None |} /\
  In (Direct exit_node) (scope_items (contextScope (run_controller flags))) /\
  (forall fuel, run fuel flags = runToCompletion fuel (run_controller flags)) /\
  (forall (O : Type) (make : O -> Agent W) (cflags : ControllerFlags O) this,
      makeController (Some make) cflags = Returned this ->
      allow_exit (opts this) = cf_allow_exit cflags).
Proof.
  intros _. split; [reflexivity|]. split; [|split].
  - unfold contextScope. simpl. apply in_or_app. right. left. reflexivity.
  - reflexivity.
  - intros O make cflags this [= <-]. reflexivity.
Qed.

End Properties.

(** * Further properties *)

(** ** The registry *)

Lemma get_insert_eq (m : ExportsMap.t) (k k' : string) (d : ExportDescriptor) :
  ExportsMap.get (ExportsMap.insert m k d) k'
  = if String.eqb k k' then Some d else ExportsMap.get m k'.
Proof.
  induction m as [|[k0 d0] m IH]; simpl.
  - destruct (String.eqb k k'); reflexivity.
  - destruct (String.eqb_spec k0 k) as [->|Hne]; simpl.
    + destruct (String.eqb k k'); reflexivity.
    + rewrite IH.
      destruct (String.eqb_spec k0 k'); destruct (String.eqb_spec k k');
        try reflexivity; congruence.
Qed.

(** X1: looking up after an insertion: the inserted key gives the new
    descriptor, every other key what it gave before. *)
Theorem ExportsMap_get_insert (m : ExportsMap.t) (k k' : string)
    (d : ExportDescriptor) :
  ExportsMap.get (ExportsMap.insert m k d) k'
  = if String.eqb k k' then Some d else ExportsMap.get m k'.
Proof.
  induction m as [|[k0 d0] m IH]; simpl.
  - destruct (String.eqb k k'); reflexivity.
  - destruct (String.eqb_spec k0 k) as [Heq|Hne]; simpl.
    + subst k0. destruct (String.eqb k k'); reflexivity.
    + rewrite IH.
      destruct (String.eqb_spec k0 k') as [H0|H0];
        destruct (String.eqb_spec k k') as [H1|H1];
        try reflexivity; congruence.
Qed.

Lemma insert_keys_eq (m : ExportsMap.t) (k : string) (d : ExportDescriptor) :
  map fst (ExportsMap.insert m k d)
  = if existsb (String.eqb k) (map fst m)
    then map fst m
    else (map fst m ++ [k])%list.
Proof.
  induction m as [|[k0 d0] m IH]; simpl; [reflexivity|].
  rewrite (String.eqb_sym k k0).
  destruct (String.eqb k0 k); simpl; [reflexivity|].
  rewrite IH. destruct (existsb (String.eqb k) (map fst m)); reflexivity.
Qed.

(** X2: an insertion keeps the order of the keys: a key already there stays in
    its place, without a second entry, and a new key goes to the end. *)
Theorem ExportsMap_insert_keys (m : ExportsMap.t) (k : string)
    (d : ExportDescriptor) :
  map fst (ExportsMap.insert m k d)
  = if existsb (String.eqb k) (map fst m)
    then map fst m
    else (map fst m ++ [k])%list.
Proof.
  induction m as [|[k0 d0] m IH]; simpl; [reflexivity|].
  rewrite (String.eqb_sym k k0).
  destruct (String.eqb k0 k) eqn:Hk; simpl.
  - reflexivity.
  - rewrite IH. destruct (existsb (String.eqb k) (map fst m)); reflexivity.
Qed.

Lemma insert_Forall (P : string * ExportDescriptor -> Prop) (m : ExportsMap.t)
    (k : string) (d : ExportDescriptor) :
  Forall P m -> P (k, d) -> Forall P (ExportsMap.insert m k d).
Proof.
  intros Hm Hk. induction Hm as [|[k0 d0] m H0 Hm IH]; simpl.
  - constructor; [exact Hk | constructor].
  - destruct (String.eqb_spec k0 k) as [->|Hne]; constructor; assumption.
Qed.

Lemma decorate_fold (class_name : string) (keys : list string) :
  forall target : option ExportsMap.t,
    or_else (fold_left (use class_name) keys target) ExportsMap.empty
    = fold_left (fun m key => ExportsMap.insert m key (descriptor class_name key))
        keys (or_else target ExportsMap.empty).
Proof.
  induction keys as [|key keys IH]; intros target; simpl; [reflexivity|].
  rewrite IH. destruct target; reflexivity.
Qed.

Lemma fold_insert_get (class_name : string) (keys : list string) :
  forall (m : ExportsMap.t) (k : string),
    ExportsMap.get
      (fold_left (fun m key => ExportsMap.insert m key (descriptor class_name key))
         keys m) k
    = if existsb (String.eqb k) keys then Some (descriptor class_name k)
      else ExportsMap.get m k.
Proof.
  induction keys as [|key keys IH]; intros m k; simpl; [reflexivity|].
  rewrite IH, get_insert_eq, (String.eqb_sym k key).
  destruct (String.eqb_spec key k) as [->|Hne]; simpl;
    destruct (existsb (String.eqb k) keys); reflexivity.
Qed.

Lemma fold_insert_keys (class_name : string) (keys : list string) :
  forall m : ExportsMap.t,
    distinct keys = true ->
    (forall k, In k keys -> existsb (String.eqb k) (map fst m) = false) ->
    map fst
      (fold_left (fun m key => ExportsMap.insert m key (descriptor class_name key))
         keys m)
    = (map fst m ++ keys)%list.
Proof.
  induction keys as [|key keys IH]; intros m Hd Hfresh; simpl.
  - rewrite app_nil_r. reflexivity.
  - simpl in Hd. apply andb_prop in Hd. destruct Hd as [Hkey Hd].
    apply negb_true_iff in Hkey.
    rewrite IH; [| exact Hd |].
    + rewrite insert_keys_eq, (Hfresh key (or_introl eq_refl)).
      rewrite <- app_assoc. reflexivity.
    + intros k Hk. rewrite insert_keys_eq, (Hfresh key (or_introl eq_refl)).
      rewrite existsb_app, (Hfresh k (or_intror Hk)). simpl.
      rewrite orb_false_r.
      destruct (String.eqb_spec k key) as [->|Hne]; [|reflexivity].
      rewrite <- Hkey. symmetry. clear - Hk.
      induction keys as [|k0 keys IHk]; [contradiction|].
      simpl. destruct Hk as [->|Hk]; [rewrite String.eqb_refl; reflexivity|].
      rewrite (IHk Hk). apply orb_true_r.
Qed.

Lemma fold_insert_decorated (class_name : string) (keys : list string) :
  forall m : ExportsMap.t,
    decorated class_name m ->
    decorated class_name
      (fold_left (fun m key => ExportsMap.insert m key (descriptor class_name key))
         keys m).
Proof.
  induction keys as [|key keys IH]; intros m Hm; simpl; [exact Hm|].
  apply IH. apply insert_Forall; [exact Hm|]. split; reflexivity.
Qed.

(** X3: the registry of a decorated class: each decorated name, and no other,
    resolves to a descriptor whose [property_key] is the name itself and
    whose adder contributes the method declaration of that name. *)
Theorem decorate_get (class_name : string) (keys : list string) (k : string) :
  ExportsMap.get (or_else (decorate class_name keys) ExportsMap.empty) k
  = if existsb (String.eqb k) keys then Some (descriptor class_name k) else None.
Proof.
  unfold decorate. rewrite decorate_fold, fold_insert_get. reflexivity.
Qed.

(** A class without decorated methods has no registry at all, and a class
    with some has one. *)
Lemma decorate_none (class_name : string) (keys : list string) :
  decorate class_name keys = None <-> keys = [].
Proof.
  split; [|intros ->; reflexivity].
  destruct keys as [|key keys]; [reflexivity|].
  unfold decorate. simpl. intros H.
  assert (Hsome : forall ks m, fold_left (use class_name) ks (Some m) <> None).
  { induction ks as [|k0 ks IHks]; intros m; simpl; [discriminate | apply IHks]. }
  exfalso. exact (Hsome _ _ H).
Qed.

Lemma forEach_decorated (class_name : string) (m : ExportsMap.t) :
  decorated class_name m ->
  forall scope : Scope,
    scope_items (ExportsMap.forEach m (fun d scope => adder d scope) scope)
    = (scope_items scope ++ map (fun kd => method_decl class_name (fst kd)) m)%list.
Proof.
  unfold ExportsMap.forEach.
  induction 1 as [|[k d] m [_ Hadd] _ IH]; intros scope; simpl.
  - rewrite app_nil_r. reflexivity.
  - rewrite IH, Hadd. simpl. rewrite <- app_assoc. reflexivity.
Qed.

Section Context_scope.

Variable W : World.

(** What the adders of a decorated class with distinct method names put
    into a new scope. *)
Lemma registry_items (this : AgentController W)
    (class_name : string) (keys : list string) :
  exports this = or_else (decorate class_name keys) ExportsMap.empty ->
  distinct keys = true ->
  scope_items
    (ExportsMap.forEach (exports this) (fun d scope => adder d scope)
       (newScope (prompts this)))
  = map (method_decl class_name) keys.
Proof.
  intros Hex Hd. rewrite Hex. unfold decorate.
  rewrite decorate_fold. simpl or_else.
  set (m := fold_left _ keys ExportsMap.empty).
  assert (Hdec : decorated class_name m)
    by (apply fold_insert_decorated; constructor).
  assert (Hkeys : map fst m = keys)
    by (unfold m; rewrite fold_insert_keys; [reflexivity | exact Hd | reflexivity]).
  rewrite (forEach_decorated class_name m Hdec). simpl.
  rewrite <- Hkeys, map_map. reflexivity.
Qed.

(** X4: the scope of the context of a controller whose agent is a decorated
    class with distinct method names: one method declaration per decorated
    method, in the order of decoration, and then the node of
    [builtins.exit] unless [allow_exit] is [false]. *)
Theorem contextScope_decorated (this : AgentController W)
    (class_name : string) (keys : list string) :
  exports this = or_else (decorate class_name keys) ExportsMap.empty ->
  distinct keys = true ->
  scope_items (contextScope this)
  = (map (method_decl class_name) keys
     ++ if or_else (allow_exit (opts this)) true then [Direct exit_node] else [])%list.
Proof.
  intros Hex Hd. unfold contextScope.
  pose proof (registry_items this class_name keys Hex Hd) as Hitems.
  destruct (or_else (allow_exit (opts this)) true).
  - unfold addNode. simpl. rewrite Hitems. reflexivity.
  - rewrite Hitems, app_nil_r. reflexivity.
Qed.

(** X5: for such a controller the context offers [builtins.exit] exactly when
    [allow_exit] is not [false]. *)
Theorem contextScope_exit_node (this : AgentController W)
    (class_name : string) (keys : list string) :
  exports this = or_else (decorate class_name keys) ExportsMap.empty ->
  distinct keys = true ->
  (In (Direct exit_node) (scope_items (contextScope this))
   <-> allow_exit (opts this) <> Some false).
Proof.
  intros Hex Hd. unfold contextScope.
  pose proof (registry_items this class_name keys Hex Hd) as Hitems.
  destruct (allow_exit (opts this)) as [[|]|]; simpl.
  - rewrite Hitems. split; [discriminate|].
    intros _. apply in_or_app. right. left. reflexivity.
  - rewrite Hitems. split; [|congruence].
    intros Hin. apply in_map_iff in Hin. destruct Hin as (k & Hk & _). discriminate.
  - rewrite Hitems. split; [discriminate|].
    intros _. apply in_or_app. right. left. reflexivity.
Qed.

(** X6: [makeController] fails with an [Internal] error on a module without a
    default export; otherwise it builds, from the agent the export makes, a
    fresh controller (no retries, empty history) whose context lists the
    decorated methods and offers [builtins.exit] unless the flag
    [allow_exit] is [false]. *)
Theorem makeController_fresh (O : Type) (flags : ControllerFlags O) :
  (exists message,
      @makeController W O None flags = Threw (Internal message)) /\
  (forall (make : O -> Agent W) class_name keys,
      agent_exports (make (cf_agent_options flags)) = decorate class_name keys ->
      distinct keys = true ->
      exists this,
        makeController (Some make) flags = Returned this /\
        agent this = make (cf_agent_options flags) /\
        retries this = 0 /\
        history this = [] /\
        scope_items (contextScope this)
        = (map (method_decl class_name) keys
           ++ if or_else (cf_allow_exit flags) true then [Direct exit_node] else [])%list).
Proof.
  split; [eexists; reflexivity|].
  intros make class_name keys Hex Hd.
  set (this := newAgentController (make (cf_agent_options flags)) (cf_prompts flags)
                 (OpenAIChatCompletion W (cf_openai_key flags))
                 (Some {| allow_exit := cf_allow_exit flags |})).
  assert (Hitems := registry_items this class_name keys).
  specialize (Hitems ltac:(unfold this; simpl; rewrite Hex; reflexivity) Hd).
  exists this. split; [reflexivity|]. repeat split.
  unfold contextScope. change (allow_exit (opts this)) with (cf_allow_exit flags).
  destruct (or_else (cf_allow_exit flags) true).
  - unfold addNode. cbn [scope_items]. rewrite Hitems. reflexivity.
  - rewrite Hitems, app_nil_r. reflexivity.
Qed.

End Context_scope.

(** ** Invariants of the loop *)

Section Loop.

Variable W : World.

Implicit Types (this : AgentController W) (pending : option Pending).
Implicit Types (err : Thrown) (action : Action).

(** What the [catch] block leaves alone, and what it does to [retries]. *)
Lemma tick_catch_keeps err this :
  agent (snd (tick_catch err this)) = agent this /\
  llm (snd (tick_catch err this)) = llm this /\
  history (snd (tick_catch err this)) = history this /\
  max_retries (snd (tick_catch err this)) = max_retries this /\
  template (snd (tick_catch err this)) = template this /\
  (retries (snd (tick_catch err this)) = retries this \/
   retries this < max_retries this /\
   retries (snd (tick_catch err this)) = retries this + 1).
Proof.
  destruct (Nat.leb_spec (max_retries this) (retries this)) as [Hb|Hb].
  - rewrite tick_catch_exhausted by assumption. simpl. auto 10.
  - rewrite tick_catch_budget by assumption.
    destruct err as [| | | | |thrown]; try (destruct thrown); simpl; auto 10.
Qed.

Lemma doAction_llm action this :
  llm (snd (doAction action this)) = llm this.
Proof.
  unfold doAction, bind, read.
  destruct (startsWith (name (call action)) "builtins.").
  - destruct (handleBuiltin_throws W action this) as [err ->]. reflexivity.
  - destruct (agent_exports (agent this)) as [m|]; [|reflexivity].
    destruct (ExportsMap.get m (name (call action))) as [d|]; [|reflexivity].
    destruct (agent_function (agent this) (property_key d)) as [fn|]; [|reflexivity].
    unfold invoke, update.
    destruct (fn (agent_state (agent this)) (arguments (call action)))
      as [[[v| |message]|err] st]; reflexivity.
Qed.

Lemma nth_last (A : Type) (l : list A) (a d : A) :
  nth (length (l ++ [a]) - 1) (l ++ [a]) d = a.
Proof.
  rewrite length_app. simpl. rewrite Nat.add_sub.
  rewrite app_nth2 by lia. rewrite Nat.sub_diag. reflexivity.
Qed.

(** X8: the retry counter stays within its budget: a tick entered with
    [retries <= max_retries] ends with [retries <= max_retries], whatever
    its outcome, and never changes [max_retries]. *)
Theorem tick_retries_bounded pending this :
  retries this <= max_retries this ->
  retries (snd (tick pending this)) <= max_retries (snd (tick pending this)) /\
  max_retries (snd (tick pending this)) = max_retries this.
Proof.
  intros Hb. rewrite tick_unfold.
  pose proof (attempt_frame W pending this) as (Fr & Fm & _).
  destruct (attempt pending this) as [[u|err] this1]; simpl in *.
  - split; [lia | assumption].
  - destruct (tick_catch_keeps err this1) as (_ & _ & _ & Hm & _ & [Hr | [Hlt Hr]]);
      split; lia.
Qed.

(** X9: the history is append-only: a tick leaves the entries there are as they
    are and adds at most one. *)
Theorem tick_history_grows pending this :
  exists added,
    history (snd (tick pending this)) = (history this ++ added)%list /\
    length added <= 1.
Proof.
  rewrite tick_unfold.
  pose proof (complete_cases W (prompt (incoming pending))
                (Some (role (incoming pending))) this) as (_ & Hh).
  fold (attempt pending this) in Hh.
  destruct (attempt pending this) as [[u|err] this1]; simpl in *.
  - destruct Hh as (a & Hh & _). exists [a]. split; [assumption | simpl; lia].
  - destruct (tick_catch_keeps err this1) as (_ & _ & Hk & _).
    exists []. rewrite Hk, Hh, app_nil_r. split; [reflexivity | simpl; lia].
Qed.

(** X10: every tick asks the model exactly once, with the one message
    [outgoing]: the client after the tick is the client after that
    exchange. *)
Theorem tick_one_exchange pending this :
  llm (snd (tick pending this))
  = snd (llm_complete W (llm this) (outgoing pending this)).
Proof.
  rewrite tick_unfold. unfold attempt, outgoing. rewrite complete_unfold.
  simpl or_else. unfold exchange.
  destruct (llm_complete W (llm this) _) as [[completion|err] l]; simpl.
  - destruct (Template.parseResponse (template this) completion) as [resp|e]; simpl.
    + pose proof (doAction_llm {| call := resp; action_output := None |}
                    (with_llm l this)) as Hl.
      destruct (doAction _ (with_llm l this)) as [[u|err] this1]; simpl in *;
        [assumption|].
      destruct (tick_catch_keeps err this1) as (_ & Hk & _). congruence.
    + destruct (tick_catch_keeps
                  (Feedback ("could not extract JSON from your response: " ++ completion))
                  (with_llm l this)) as (_ & Hk & _).
      exact Hk.
  - destruct (tick_catch_keeps err (with_llm l this)) as (_ & Hk & _). exact Hk.
Qed.

(** X11: after a successful tick the loop sends the output of the capability:
    the next message has role [user] and the text [renderOutput] gives for
    the output just recorded. *)
Theorem next_message_after_success pending this :
  fst (attempt pending this) = Returned tt ->
  exists r this' response v,
    tick pending this = (Returned r, this') /\
    isExited r = false /\
    history this'
    = (history this ++ [{| call := response; action_output := Some v |}])%list /\
    outgoing (Some (as_pending r)) this'
    = [{| msg_role := user;
          content := Template.renderOutput (template this) v |}].
Proof.
  intros Hok.
  destruct (attempt_returns W _ _ Hok) as (response & Hreq).
  destruct (attempt_requested W _ _ _ Hreq) as (this1 & (_ & _ & Ft & _) & Hh & _ & Ha).
  pose proof (doAction_cases W {| call := response; action_output := None |} this1)
    as ((_ & _ & Ft' & _) & Hcase).
  rewrite <- Ha in Hcase, Ft'. rewrite Hok in Hcase. simpl in Hcase.
  destruct Hcase as (_ & v & Hv).
  rewrite tick_unfold.
  destruct (attempt pending this) as [o this2]. simpl in Hok, Hv, Ft'. subst o.
  exists (ResPending {| role := user; prompt := None |}), (with_retries 0 this2),
    response, v.
  split; [reflexivity|]. split; [reflexivity|].
  split; [simpl; rewrite Hv, Hh; reflexivity|].
  unfold outgoing, incoming, promptText. simpl.
  rewrite Hv, nth_last, length_app. simpl.
  rewrite Nat.add_1_r. simpl. rewrite Ft', Ft. reflexivity.
Qed.

(** X12: the first message of a fresh controller is the context, with role
    [user]; the message after a corrective result is that corrective prompt
    itself, with role [system]. *)
Theorem next_message_first_and_corrective :
  (forall a index model o,
      outgoing None (@newAgentController W a index model o)
      = [{| msg_role := user;
            content := renderContext (@newAgentController W a index model o) |}]) /\
  (forall pending this err,
      caught pending this = Some err -> recoverable err = true ->
      retries this < max_retries this ->
      exists r this',
        tick pending this = (Returned r, this') /\
        outgoing (Some (as_pending r)) this'
        = [{| msg_role := system; content := corrective this err |}]).
Proof.
  split; [reflexivity|].
  intros pending this err Hc Hr Hb.
  destruct (tick_converts W _ _ _ Hc Hr Hb) as (this' & Ht & _).
  eexists. exists this'. split; [exact Ht | reflexivity].
Qed.

(** A tick resolves to [Exited] only by catching an [Exit], with budget
    left. *)
Lemma tick_exited pending this r this' :
  tick pending this = (Returned r, this') ->
  isExited r = true ->
  caught pending this = Some (Exit (output_of r)) /\
  retries this < max_retries this.
Proof.
  rewrite tick_unfold. unfold caught.
  pose proof (attempt_frame W pending this) as (Fr & Fm & _).
  destruct (attempt pending this) as [[u|err] this1]; simpl in *.
  - intros [= <- _]. discriminate.
  - destruct (Nat.leb_spec (max_retries this1) (retries this1)) as [Hb|Hb].
    + rewrite tick_catch_exhausted by assumption. discriminate.
    + rewrite tick_catch_budget by assumption.
      destruct err as [| | | | |thrown]; try (destruct thrown);
        intros [= <- _]; try discriminate.
      intros _. split; [reflexivity | lia].
Qed.

Lemma after_runToCompletion k : forall n pending this pending' this',
  after k pending this = Some (pending', this') ->
  runToCompletion_from (k + n) pending this = runToCompletion_from n pending' this'.
Proof.
  induction k as [|k IH]; intros n pending this pending' this' Ha; simpl in *.
  - injection Ha as <- <-. reflexivity.
  - destruct (tick pending this) as [[r|e] this1]; [|discriminate].
    destruct (isExited r); [discriminate|]. apply IH. exact Ha.
Qed.

(** X13: [runToCompletion] returns only what an [Exit] carried: when a run
    returns [v], some tick of it caught [Exit] with the output [v] while
    budget was left. *)
Theorem runToCompletion_returns_exit fuel : forall pending this v this',
  runToCompletion_from fuel pending this = Some (Returned v, this') ->
  exists k pending' this'',
    k < fuel /\
    after k pending this = Some (pending', this'') /\
    caught pending' this'' = Some (Exit v) /\
    retries this'' < max_retries this''.
Proof.
  induction fuel as [|fuel IH]; intros pending this v this' Hrun; [discriminate|].
  simpl in Hrun.
  destruct (tick pending this) as [[r|e] this1] eqn:Ht; [|discriminate].
  destruct (isExited r) eqn:Hex.
  - injection Hrun as <- <-.
    destruct (tick_exited _ _ _ _ Ht Hex) as [Hc Hb].
    exists 0, pending, this. repeat split; [lia | assumption | assumption].
  - destruct (IH _ _ _ _ Hrun) as (k & pending' & this'' & Hk & Ha & Hc & Hb).
    exists (S k), pending', this''. repeat split; try assumption; [lia|].
    simpl. rewrite Ht, Hex. exact Ha.
Qed.

(** X14: a run whose first [max_retries + 1] ticks all catch recoverable errors
    throws at tick [max_retries + 1], and not before: with less fuel it is
    still running. *)
Theorem runToCompletion_gives_up this :
  retries this = 0 ->
  streak (S (max_retries this)) None this = true ->
  (exists err this',
      runToCompletion (S (max_retries this)) this = Some (Threw err, this') /\
      recoverable err = true) /\
  (forall fuel, fuel <= max_retries this -> runToCompletion fuel this = None).
Proof.
  intros H0 Hs. split.
  - replace (S (max_retries this)) with (max_retries this + 1) in Hs |- * by lia.
    destruct (streak_split W _ _ _ _ Hs) as [Hpre Hlast].
    destruct (streak_within_budget W _ _ _ Hpre) as (pending' & this1 & Ha & Hr & Hm & _);
      [lia|].
    specialize (Hlast _ _ Ha). simpl in Hlast.
    destruct (caught pending' this1) as [err|] eqn:Hc; [|discriminate].
    apply andb_prop in Hlast. destruct Hlast as [Hrec _].
    destruct (tick_reraises W _ _ _ Hc) as (this2 & Ht & _); [lia|].
    exists err, this2. split; [|exact Hrec].
    unfold runToCompletion. rewrite (after_runToCompletion _ 1 _ _ _ _ Ha).
    simpl. rewrite Ht. reflexivity.
  - intros fuel Hf.
    replace (S (max_retries this)) with (fuel + (S (max_retries this) - fuel)) in Hs
      by lia.
    destruct (streak_split W _ _ _ _ Hs) as [Hpre _].
    destruct (streak_within_budget W _ _ _ Hpre) as (pending' & this1 & Ha & _);
      [lia|].
    unfold runToCompletion. rewrite <- (Nat.add_0_r fuel).
    rewrite (after_runToCompletion _ 0 _ _ _ _ Ha). reflexivity.
Qed.

End Loop.

(** ** Dispatch of capabilities *)

Section Dispatching.

Variable W : World.

Implicit Types (this : AgentController W) (pending : option Pending).
Implicit Types (err : Thrown) (action : Action).

(** [doAction] on a registered name whose key is a method of the agent. *)
Lemma doAction_registered action this m d (fn : Method W) :
  startsWith (name (call action)) "builtins." = false ->
  agent_exports (agent this) = Some m ->
  ExportsMap.get m (name (call action)) = Some d ->
  agent_function (agent this) (property_key d) = Some fn ->
  doAction action this
  = match fn (agent_state (agent this)) (arguments (call action)) with
    | (Returned output, st) =>
        match logger_returns output with
        | Returned v =>
            (Returned tt,
             with_history
               (history this ++ [{| call := call action; action_output := Some v |}])
               (with_agent (set_agent_state st (agent this)) this))
        | Threw err =>
            (Threw err, with_agent (set_agent_state st (agent this)) this)
        end
    | (Threw err, st) =>
        (Threw err, with_agent (set_agent_state st (agent this)) this)
    end.
Proof.
  intros Hb Hm Hd Hfn. unfold doAction, bind, read. rewrite Hb, Hm, Hd, Hfn.
  unfold invoke, update.
  destruct (fn (agent_state (agent this)) (arguments (call action)))
    as [[[v| |message]|err] st]; reflexivity.
Qed.

(** X15: a call of a registered name is made on the agent property the
    descriptor names, with the arguments of the call.  When the method
    returns a value the logger can render, the tick succeeds, the agent
    keeps the state the method left, and the call is recorded with that
    value.  When it returns a value [JSON.stringify] does not render, the
    tick catches the [TypeError] of the logger instead: the agent keeps the
    state the method left, but nothing is recorded. *)
Theorem dispatch_returns pending this response m d (fn : Method W) output st :
  requested pending this = Some response ->
  startsWith (name response) "builtins." = false ->
  agent_exports (agent this) = Some m ->
  ExportsMap.get m (name response) = Some d ->
  agent_function (agent this) (property_key d) = Some fn ->
  fn (agent_state (agent this)) (arguments response) = (Returned output, st) ->
  match logger_returns output with
  | Returned v =>
      exists this',
        tick pending this
        = (Returned (ResPending {| role := user; prompt := None |}), this') /\
        agent_state (agent this') = st /\
        retries this' = 0 /\
        history this'
        = (history this ++ [{| call := response; action_output := Some v |}])%list
  | Threw err =>
      caught pending this = Some err /\
      unclassified err = true /\
      agent_state (agent (snd (tick pending this))) = st /\
      history (snd (tick pending this)) = history this
  end.
Proof.
  intros Hreq Hb Hm Hd Hfn Hcall.
  destruct (attempt_requested W _ _ _ Hreq) as (this1 & _ & Hh & Hag & Ha).
  rewrite (doAction_registered {| call := response; action_output := None |}
             this1 m d fn) in Ha; try assumption; try (rewrite Hag; assumption).
  cbn [call] in Ha. rewrite Hag, Hcall in Ha.
  destruct (logger_returns output) as [v|err] eqn:Hlog.
  - rewrite tick_unfold, Ha. eexists. split; [reflexivity|]. simpl.
    rewrite Hh. repeat split.
  - split; [unfold caught; rewrite Ha; reflexivity|].
    split; [destruct output; simpl in Hlog; try discriminate;
            injection Hlog as <-; reflexivity|].
    rewrite tick_unfold, Ha.
    destruct (tick_catch_keeps W err (with_agent (set_agent_state st (agent this)) this1))
      as (Hk1 & _ & Hk3 & _).
    rewrite Hk1, Hk3. simpl. split; [reflexivity | assumption].
Qed.

(** X16: when the method throws, the tick catches that very error; the agent
    keeps the state the method left although nothing is recorded. *)
Theorem dispatch_throws pending this response m d (fn : Method W) err st :
  requested pending this = Some response ->
  startsWith (name response) "builtins." = false ->
  agent_exports (agent this) = Some m ->
  ExportsMap.get m (name response) = Some d ->
  agent_function (agent this) (property_key d) = Some fn ->
  fn (agent_state (agent this)) (arguments response) = (Threw err, st) ->
  caught pending this = Some err /\
  agent_state (agent (snd (tick pending this))) = st /\
  history (snd (tick pending this)) = history this.
Proof.
  intros Hreq Hb Hm Hd Hfn Hcall.
  destruct (attempt_requested W _ _ _ Hreq) as (this1 & _ & Hh & Hag & Ha).
  rewrite (doAction_registered {| call := response; action_output := None |}
             this1 m d fn) in Ha; try assumption; try (rewrite Hag; assumption).
  simpl in Ha. rewrite Hag, Hcall in Ha.
  split; [unfold caught; rewrite Ha; reflexivity|].
  rewrite tick_unfold, Ha.
  destruct (tick_catch_keeps W err (with_agent (set_agent_state st (agent this)) this1))
    as (Hk1 & _ & Hk3 & _).
  rewrite Hk1, Hk3. simpl. split; [reflexivity | assumption].
Qed.

(** X17: a name that starts with [builtins.] never reaches the agent, also when
    the registry has an entry for it: the tick does not succeed, the agent
    is as before and nothing is recorded. *)
Theorem builtin_prefix_shadows_registry pending this response :
  requested pending this = Some response ->
  startsWith (name response) "builtins." = true ->
  fst (attempt pending this) <> Returned tt /\
  agent (snd (tick pending this)) = agent this /\
  history (snd (tick pending this)) = history this.
Proof.
  intros Hreq Hb.
  destruct (attempt_requested W _ _ _ Hreq) as (this1 & _ & Hh & Hag & Ha).
  rewrite doAction_builtin in Ha by exact Hb.
  destruct (handleBuiltin_throws W {| call := response; action_output := None |} this1)
    as [err He].
  rewrite He in Ha. rewrite tick_unfold, Ha. simpl.
  destruct (tick_catch_keeps W err this1) as (Hk1 & _ & Hk3 & _).
  rewrite Hk1, Hk3. repeat split; [discriminate | assumption | assumption].
Qed.

(** X18: an [Internal] error is never absorbed, wherever it comes from: the tick
    throws it on as it is, with or without budget, and does not count it. *)
Theorem internal_always_propagates pending this message :
  caught pending this = Some (Internal message) ->
  exists this',
    tick pending this = (Threw (Internal message), this') /\
    retries this' = retries this /\
    history this' = history this.
Proof.
  intros Hc.
  destruct (caught_attempt W _ _ _ Hc) as (this1 & Ha & (Fr & Fm & _) & Hh).
  rewrite tick_unfold, Ha. exists this1.
  destruct (Nat.leb_spec (max_retries this1) (retries this1)).
  - rewrite tick_catch_exhausted by assumption. auto.
  - rewrite tick_catch_budget by assumption. auto.
Qed.

(** X7: the flag [allow_exit] only hides the declaration: with [allow_exit]
    false a call of [builtins.exit] still ends the run, with the first
    argument as output. *)
Theorem exit_not_gated_by_allow_exit pending this response :
  allow_exit (opts this) = Some false ->
  requested pending this = Some response ->
  name response = "builtins.exit" ->
  retries this < max_retries this ->
  exists this',
    tick pending this
    = (Returned (ResExited {| output := nth 0 (arguments response) JsUndefined |}),
       this') /\
    allow_exit (opts this') = Some false.
Proof.
  intros Hopt Hreq Hname Hbudget.
  destruct (attempt_requested W _ _ _ Hreq)
    as (this1 & (Fr & Fm & _ & Fo & _) & Hh & _ & Ha).
  rewrite doAction_builtin in Ha by (simpl; rewrite Hname; reflexivity).
  unfold handleBuiltin in Ha. simpl in Ha. rewrite Hname in Ha. simpl in Ha.
  rewrite tick_unfold, Ha. exists this1.
  destruct (arguments response) as [|v rest]; simpl;
    rewrite tick_catch_budget by lia; (split; [reflexivity | congruence]).
Qed.


(** Reduces the projections of controllers and agents, and nothing else. *)
Ltac fields :=
  cbn [fst snd with_llm with_agent with_history with_retries set_agent_state
       agent prompts exports llm template history opts retries max_retries
       agent_exports agent_template agent_function agent_state].


End Dispatching.

(** ** The discriminators *)

(** X21: [isExited] holds exactly of the [Exited] values, [isPending] exactly of
    the pending values that carry a prompt, and never both hold. *)
Theorem discriminators_exclusive (r : TickResult) :
  (isExited r = true <-> exists e, r = ResExited e) /\
  (isPending r = true <->
   exists ro text, r = ResPending {| role := ro; prompt := Some text |}) /\
  (isExited r = true -> isPending r = false).
Proof.
  split; [apply isExited_spec|]. split; [apply isPending_spec|].
  destruct r as [e|[ro [text|]]]; simpl; intros H; try discriminate; reflexivity.
Qed.

(** ** The logger *)

Section Logging.

Variable std : Log.Std.

(** [trimEnd] drops a run of white space at the end and nothing else. *)
Lemma trimEnd_split (s : Log.Text) :
  exists blank,
    s = (Log.trimEnd s ++ blank)%list /\ forallb Log.isWhiteSpace blank = true.
Proof.
  induction s as [|ch rest (blank & Hs & Hb)]; simpl.
  - exists []. split; reflexivity.
  - destruct (Log.trimEnd rest) as [|ch' kept] eqn:Hk.
    + destruct (Log.isWhiteSpace ch) eqn:Hw.
      * exists (ch :: rest). split; [reflexivity|].
        simpl in Hs. subst blank. simpl. rewrite Hw, Hb. reflexivity.
      * exists blank. simpl in Hs. subst blank. split; [reflexivity | exact Hb].
    + exists blank. split; [|exact Hb]. simpl in *. congruence.
Qed.

(** What [trimEnd] keeps does not end in white space. *)
Lemma trimEnd_last (s : Log.Text) : forall kept ch,
  Log.trimEnd s = (kept ++ [ch])%list -> Log.isWhiteSpace ch = false.
Proof.
  induction s as [|c rest IH]; intros kept ch; simpl.
  - destruct kept; discriminate.
  - destruct (Log.trimEnd rest) as [|c' kept'] eqn:Hk.
    + destruct (Log.isWhiteSpace c) eqn:Hw.
      * destruct kept; discriminate.
      * destruct kept as [|c0 kept]; simpl.
        -- intros [= ->]. exact Hw.
        -- intros [= _ H]. destruct kept; discriminate.
    + destruct kept as [|c0 kept]; simpl; [intros [= _ H]; discriminate|].
      intros [= _ H]. apply (IH kept ch). exact H.
Qed.

(** X22: the text [stringify] gives is [null] for [undefined] and the JSON
    text itself when that has at most [stringified_max_length] code units.
    A longer JSON text is cut after exactly [stringified_max_length] code
    units, the white space at the end of that piece, and nothing else, is
    dropped, and three dots follow.  So the text never has more than
    [stringified_max_length + 3] code units (4 for [null]). *)
Theorem stringify_shape (l : Log.Logger) (value : JsValue) (text : Log.Text) :
  Log.stringify std l value = Returned text ->
  (value = JsUndefined -> text = Log.text "null") /\
  (forall output_str,
      value <> JsUndefined ->
      Log.JSON_stringify std value = Some output_str ->
      (length output_str <= Log.stringified_max_length l -> text = output_str) /\
      (Log.stringified_max_length l < length output_str ->
       exists kept blank rest,
         output_str = (kept ++ blank ++ rest)%list /\
         length (kept ++ blank)%list = Log.stringified_max_length l /\
         forallb Log.isWhiteSpace blank = true /\
         (forall kept' ch, kept = (kept' ++ [ch])%list ->
                           Log.isWhiteSpace ch = false) /\
         text = (kept ++ Log.text "...")%list)) /\
  length text <= Nat.max 4 (Log.stringified_max_length l + 3).
Proof.
  intros Hs.
  assert (Hnull : value = JsUndefined -> text = Log.text "null").
  { intros ->. simpl in Hs. injection Hs as <-. reflexivity. }
  assert (Hrest : forall output_str,
             value <> JsUndefined ->
             Log.JSON_stringify std value = Some output_str ->
             text = if Nat.ltb (Log.stringified_max_length l) (length output_str)
                    then (Log.trimEnd
                            (Log.slice0 (Log.stringified_max_length l) output_str)
                          ++ Log.text "...")%list
                    else output_str).
  { intros output_str Hv Hj. unfold Log.stringify in Hs. rewrite Hj in Hs.
    destruct value; try contradiction;
      destruct (Nat.ltb _ _); injection Hs as <-; reflexivity. }
  assert (Hcut : forall output_str,
             Log.stringified_max_length l < length output_str ->
             exists blank,
               output_str
               = (Log.trimEnd (Log.slice0 (Log.stringified_max_length l) output_str)
                  ++ blank ++ skipn (Log.stringified_max_length l) output_str)%list /\
               length (Log.trimEnd
                         (Log.slice0 (Log.stringified_max_length l) output_str)
                       ++ blank)%list
               = Log.stringified_max_length l /\
               forallb Log.isWhiteSpace blank = true).
  { intros output_str Hlong. unfold Log.slice0.
    destruct (trimEnd_split (firstn (Log.stringified_max_length l) output_str))
      as (blank & Hsplit & Hblank).
    exists blank. split; [|split; [|exact Hblank]].
    - rewrite app_assoc, <- Hsplit, firstn_skipn. reflexivity.
    - rewrite <- Hsplit. apply firstn_length_le. lia. }
  split; [exact Hnull|]. split.
  - intros output_str Hv Hj. rewrite (Hrest output_str Hv Hj). split.
    + intros Hshort. rewrite (proj2 (Nat.ltb_ge _ _) Hshort). reflexivity.
    + intros Hlong. rewrite (proj2 (Nat.ltb_lt _ _) Hlong).
      destruct (Hcut output_str Hlong) as (blank & Hd & Hlen & Hblank).
      eexists. exists blank. eexists. split; [exact Hd|].
      split; [exact Hlen|]. split; [exact Hblank|].
      split; [|reflexivity]. intros kept' ch. apply trimEnd_last.
  - destruct (Log.JSON_stringify std value) as [output_str|] eqn:Hj.
    + assert (Hv : value = JsUndefined \/ value <> JsUndefined)
        by (destruct value; [left; reflexivity | right; discriminate ..]).
      destruct Hv as [Hv|Hv]; [rewrite (Hnull Hv); apply Nat.le_max_l|].
      rewrite (Hrest _ Hv eq_refl). apply Nat.max_le_iff. right.
      destruct (Nat.ltb_spec (Log.stringified_max_length l) (length output_str))
        as [Hlong|Hshort].
      * destruct (Hcut output_str Hlong) as (blank & _ & Hlen & _).
        rewrite length_app in Hlen |- *. simpl. lia.
      * lia.
    + destruct value;
        try (unfold Log.stringify in Hs; rewrite Hj in Hs; discriminate).
      rewrite Hnull by reflexivity. apply Nat.le_max_l.
Qed.

(** X23: where [JSON.stringify] renders every value but [undefined], the
    logging of outputs, interrupts and exits never throws. *)
Theorem logging_never_throws (l : Log.Logger) (value : JsValue) :
  (forall v, v <> JsUndefined -> Log.JSON_stringify std v <> None) ->
  (exists text, Log.stringify std l value = Returned text) /\
  (exists line, Log.returns std l value = Returned line) /\
  (exists line, Log.interrupt std l value = Returned line) /\
  (exists line, Log.exit std l value = Returned line).
Proof.
  intros Hjson.
  assert (Hs : exists text, Log.stringify std l value = Returned text).
  { unfold Log.stringify.
    destruct value; try (eexists; reflexivity);
      (destruct (Log.JSON_stringify std _) as [output_str|] eqn:Hj;
       [destruct (Nat.ltb _ _); eexists; reflexivity
       |exfalso; eapply Hjson; [|exact Hj]; discriminate]). }
  destruct Hs as [text Hs]. unfold Log.returns, Log.interrupt, Log.exit. rewrite Hs.
  repeat split; eexists; reflexivity.
Qed.

(** X24: in level [quiet], the level of the logger as created, no method of
    the logger writes a trace line. *)
Theorem quiet_logger_is_silent (l : Log.Logger) :
  Log.getLogLevel l = Log.quiet ->
  (forall header message, Log.trace std l header message = None) /\
  (forall color header message, Log.arrowed std l color header message = None) /\
  (forall callee args, Log.calls std l callee args = None) /\
  (forall message, Log.feedback std l message = None) /\
  (forall message, Log.error std l message = None) /\
  (forall msg, Log.thought std l msg = None) /\
  (forall value line, Log.returns std l value <> Returned (Some line)) /\
  (forall value line, Log.interrupt std l value <> Returned (Some line)) /\
  (forall value line, Log.exit std l value <> Returned (Some line)) /\
  Log.getLogLevel Log.logger = Log.quiet.
Proof.
  unfold Log.getLogLevel. intros Hq.
  assert (Ht : forall header message, Log.trace std l header message = None).
  { intros. unfold Log.trace, Log.toLogLevelNum. rewrite Hq. reflexivity. }
  repeat split; intros;
    unfold Log.arrowed, Log.calls, Log.feedback, Log.error, Log.thought,
      Log.returns, Log.interrupt, Log.exit, Log.arrowed;
    rewrite ?Ht; try reflexivity;
    destruct (Log.stringify std l value); unfold Log.arrowed; rewrite ?Ht;
    discriminate.
Qed.

(** X25: headers are right-aligned: where leading spaces pass through
    [stripColor] and count one each for [unicodeWidth], the header [trace]
    writes is [header_width] wide, and a header wider than that is written
    whole. *)
Theorem trace_header_aligned (l : Log.Logger) (header : Log.Text) :
  (forall n s, Log.colors_stripColor std (Log.spaces n ++ s)%list
               = (Log.spaces n ++ Log.colors_stripColor std s)%list) ->
  (forall n s, Log.unicodeWidth std (Log.spaces n ++ s)%list
               = n + Log.unicodeWidth std s) ->
  Log.unicodeWidth std (Log.colors_stripColor std (Log.padded std l header))
  = Nat.max (Log.header_width l)
      (Log.unicodeWidth std (Log.colors_stripColor std header)) /\
  (Log.header_width l <= Log.unicodeWidth std (Log.colors_stripColor std header) ->
   Log.padded std l header = header).
Proof.
  intros Hstrip Hwidth. unfold Log.padded.
  set (w := Log.unicodeWidth std (Log.colors_stripColor std header)).
  destruct (Z.leb_spec 0 (Z.of_nat (Log.header_width l) - Z.of_nat w)) as [Hp|Hp].
  - split.
    + rewrite Hstrip, Hwidth. fold w. lia.
    + intros Hle. replace (Z.to_nat _) with 0 by lia. reflexivity.
  - split.
    + rewrite (Hstrip 0), (Hwidth 0). fold w. lia.
    + intros _. reflexivity.
Qed.

End Logging.

(** * The controller at work *)

(** ** Runs inside the budget *)

(** The model calls [hurl], which does [throw null], on a fresh controller:
    the tick, and with it the run, ends in the [TypeError] of the logger. *)
Lemma C1_thrown_null_not_converted_witness :
  caught None (Samples.odd ["call hurl"]) = Some (ThrownValue JsNull) /\
  retries (Samples.odd ["call hurl"]) = 0 /\
  unclassified (ThrownValue JsNull) = true /\
  (exists this',
      tick None (Samples.odd ["call hurl"])
      = (Threw (TypeError "Cannot read properties of null (reading 'message')"),
         this') /\
      (forall r this'', tick None (Samples.odd ["call hurl"]) <> (Returned r, this'')) /\
      retries this' = 0 /\
      history this' = []) /\
  option_map fst (runToCompletion 1 (Samples.odd ["call hurl"]))
  = Some (Threw (TypeError "Cannot read properties of null (reading 'message')")).
Proof.
  split; [reflexivity|]. split; [reflexivity|].
  destruct (C1_thrown_null_not_converted Demo.world None (Samples.odd ["call hurl"])
              (ThrownValue JsNull)) as [Hu Ht];
    [reflexivity | reflexivity | simpl; lia |].
  split; [exact Hu|]. split; [exact Ht | reflexivity].
Defined.

(** Six replies that do not parse: five corrective prompts, then the sixth
    failure leaves the loop. *)
Lemma retry_budget_example :
  (exists this',
      tick None (Demo.controller ["a"; "b"; "c"; "d"; "e"; "f"])
      = (Returned (ResPending
                     {| role := system;
                        prompt := Some "could not extract JSON from your response: a" |}),
         this') /\
      retries this' = 1) /\
  (exists this',
      tick None (Demo.exhausted ["call fail"])
      = (Threw (NativeError "Error" "boom"), this') /\
      retries this' = 5) /\
  (exists pending' this',
      after 4 None (Demo.controller ["a"; "b"; "c"; "d"; "e"; "f"])
      = Some (pending', this') /\
      retries this' = 4 /\
      (0 < 4 -> exists text,
          pending' = Some {| role := system; prompt := Some text |})) /\
  (exists pending' this' err this'',
      after 5 None (Demo.controller ["a"; "b"; "c"; "d"; "e"; "f"])
      = Some (pending', this') /\
      caught pending' this' = Some err /\ recoverable err = true /\
      tick pending' this' = (Threw err, this'')).
Proof.
  destruct (retry_budget Demo.world) as (A & B & C & D & _).
  split; [|split; [|split]].
  - apply (A None (Demo.controller ["a"; "b"; "c"; "d"; "e"; "f"])
             (Feedback "could not extract JSON from your response: a"));
      [reflexivity | reflexivity | simpl; lia].
  - apply (B None (Demo.exhausted ["call fail"]) (NativeError "Error" "boom"));
      [reflexivity | reflexivity | simpl; lia].
  - apply (C 4 None (Demo.controller ["a"; "b"; "c"; "d"; "e"; "f"]));
      [reflexivity | simpl; lia | reflexivity].
  - apply (D None (Demo.controller ["a"; "b"; "c"; "d"; "e"; "f"]));
      reflexivity.
Defined.

Lemma C2_successful_tick_witness :
  fst (attempt None (Demo.controller ["call echo a b"])) = Returned tt /\
  exists this' response v,
    requested None (Demo.controller ["call echo a b"]) = Some response /\
    startsWith (name response) "builtins." = false /\
    tick None (Demo.controller ["call echo a b"])
    = (Returned (ResPending {| role := user; prompt := None |}), this') /\
    retries this' = 0 /\
    length (history this') = length (history (Demo.controller ["call echo a b"])) + 1 /\
    history this'
    = (history (Demo.controller ["call echo a b"])
       ++ [{| call := response; action_output := Some v |}])%list.
Proof.
  split; [reflexivity|].
  apply (C2_successful_tick Demo.world). reflexivity.
Defined.

Lemma C10_exhausted_rethrows_witness :
  caught None (Demo.exhausted ["call builtins.exit"]) = Some (Exit JsUndefined) /\
  tick None (Demo.exhausted ["call builtins.exit"])
  = (Threw (Exit JsUndefined), snd (attempt None (Demo.exhausted ["call builtins.exit"]))) /\
  forall r this', tick None (Demo.exhausted ["call builtins.exit"]) <> (Returned r, this').
Proof.
  split; [reflexivity|].
  apply (C10_exhausted_rethrows Demo.world); [simpl; lia | reflexivity].
Defined.

(** ** Dispatch *)

Lemma C3_unregistered_call_witness :
  requested None (Demo.controller ["call nope"])
  = Some {| name := "nope"; reasoning := None; arguments := [] |} /\
  exists this',
    tick None (Demo.controller ["call nope"])
    = (Returned (ResPending
                   {| role := system;
                      prompt := Some (Template.renderError Demo.words
                                        (TypeError "nope is not a function")) |}),
       this') /\
    retries this' = 1 /\
    history this' = [].
Proof.
  split; [reflexivity|].
  eapply (C3_unregistered_call Demo.world None (Demo.controller ["call nope"])
            {| name := "nope"; reasoning := None; arguments := [] |});
    [reflexivity | reflexivity | reflexivity | left; reflexivity | simpl; lia].
Defined.

(** The name [nope] is unknown to the registry: the error is a [TypeError],
    not a [Feedback], and the prompt is what the template renders for it, not
    its message. *)
Lemma C3_counterexample :
  requested None (Demo.controller ["call nope"])
  = Some {| name := "nope"; reasoning := None; arguments := [] |} /\
  ExportsMap.get (or_else Demo.registry ExportsMap.empty) "nope" = None /\
  caught None (Demo.controller ["call nope"])
  = Some (NativeError "TypeError" "nope is not a function") /\
  instanceofFeedback (NativeError "TypeError" "nope is not a function") = false /\
  fst (tick None (Demo.controller ["call nope"]))
  = Returned (ResPending
                {| role := system;
                   prompt := Some "error: TypeError: nope is not a function. Reply with: call <name> <arguments>" |}) /\
  fst (tick None (Demo.controller ["call nope"]))
  <> Returned (ResPending {| role := system; prompt := Some "nope is not a function" |}).
Proof.
  repeat split; try reflexivity. vm_compute. discriminate.
Defined.

Lemma C4_exit_within_budget_witness :
  requested None (Demo.controller ["call builtins.exit done"])
  = Some {| name := "builtins.exit"; reasoning := None;
            arguments := [JsString "done"] |} /\
  exists out this',
    tick None (Demo.controller ["call builtins.exit done"])
    = (Returned (ResExited {| output := out |}), this') /\
    ([JsString "done"] = [] -> out = JsUndefined) /\
    (forall v rest, [JsString "done"] = v :: rest -> out = v) /\
    retries this' = 0 /\
    history this' = [].
Proof.
  split; [reflexivity|].
  apply (C4_exit_within_budget Demo.world None
           (Demo.controller ["call builtins.exit done"])
           {| name := "builtins.exit"; reasoning := None;
              arguments := [JsString "done"] |});
    [reflexivity | reflexivity | simpl; lia].
Defined.

(** After five replies that do not parse the budget is used up: the exit the
    model then asks for leaves [tick], and the run, as a thrown [Exit]. *)
Lemma C4_counterexample :
  requested None (Demo.exhausted ["call builtins.exit"])
  = Some {| name := "builtins.exit"; reasoning := None; arguments := [] |} /\
  fst (tick None (Demo.exhausted ["call builtins.exit"])) = Threw (Exit JsUndefined) /\
  fst (tick None (Demo.exhausted ["call builtins.exit"]))
  <> Returned (ResExited {| output := JsUndefined |}) /\
  option_map fst
    (runToCompletion 6
       (Demo.controller ["a"; "b"; "c"; "d"; "e"; "call builtins.exit"]))
  = Some (Threw (Exit JsUndefined)).
Proof.
  repeat split; try reflexivity. vm_compute. discriminate.
Defined.

Lemma C5_unknown_builtin_witness :
  requested None (Demo.controller ["call builtins.quit"])
  = Some {| name := "builtins.quit"; reasoning := None; arguments := [] |} /\
  hd "" (split "." "quit") <> "exit" /\
  exists this',
    tick None (Demo.controller ["call builtins.quit"])
    = (Threw (Internal ("unknown builtin '" ++ hd "" (split "." "quit") ++ "'")), this') /\
    retries this' = 0 /\
    history this' = [].
Proof.
  split; [reflexivity|]. split; [vm_compute; discriminate|].
  apply (C5_unknown_builtin Demo.world None
           (Demo.controller ["call builtins.quit"])
           {| name := "builtins.quit"; reasoning := None; arguments := [] |} "quit");
    [reflexivity | reflexivity | vm_compute; discriminate].
Defined.

(** [builtins.exit.now] is [builtins.<x>] with [x] other than [exit], and
    still ends the run: no [Internal] is thrown. *)
Lemma C5_counterexample :
  requested None (Demo.controller ["call builtins.exit.now"])
  = Some {| name := "builtins." ++ "exit.now"; reasoning := None; arguments := [] |} /\
  "exit.now" <> "exit" /\
  tick None (Demo.controller ["call builtins.exit.now"])
  = (Returned (ResExited {| output := JsUndefined |}),
     snd (attempt None (Demo.controller ["call builtins.exit.now"]))) /\
  forall message,
    fst (tick None (Demo.controller ["call builtins.exit.now"]))
    <> Threw (Internal message).
Proof.
  repeat split; try reflexivity; [discriminate|].
  intros message. vm_compute. discriminate.
Defined.

(** ** Replies that do not parse *)

Lemma C6_parse_failure_witness :
  fst (exchange (outgoing None (Demo.controller ["hello"])) (Demo.controller ["hello"]))
  = Returned "hello" /\
  Template.parseResponse Demo.words "hello"
  = Threw (NativeError "SyntaxError" "expected: call <name> <arguments>") /\
  exists this',
    tick None (Demo.controller ["hello"])
    = (Returned (ResPending
                   {| role := system;
                      prompt := Some ("could not extract JSON from your response: "
                                      ++ "hello") |}), this') /\
    retries this' = 1 /\
    history this' = [].
Proof.
  split; [reflexivity|]. split; [reflexivity|].
  apply (C6_parse_failure Demo.world None (Demo.controller ["hello"]) "hello"
           (NativeError "SyntaxError" "expected: call <name> <arguments>"));
    [reflexivity | reflexivity | simpl; lia].
Defined.

(** The prompt after the reply [hello] is the message of the [Feedback] and
    nothing more: it names neither [name] nor [arguments], and it is not what
    the template renders for the error. *)
Lemma C6_counterexample :
  fst (tick None (Demo.controller ["hello"]))
  = Returned (ResPending
                {| role := system;
                   prompt := Some "could not extract JSON from your response: hello" |}) /\
  restates_reply_shape "could not extract JSON from your response: hello" = false /\
  restates_reply_shape
    (Template.renderError Demo.words
       (Feedback "could not extract JSON from your response: hello")) = true /\
  retries (snd (tick None (Demo.controller ["hello"]))) = 1.
Proof.
  repeat split; reflexivity.
Defined.

(** ** Interrupts *)



(** ** Discriminators *)

Lemma C8_success_value_not_pending_witness :
  fst (attempt None (Demo.controller ["call echo a b"])) = Returned tt /\
  exists r this',
    tick None (Demo.controller ["call echo a b"]) = (Returned r, this') /\
    r = ResPending {| role := user; prompt := None |} /\
    isPending r = false /\
    isExited r = false.
Proof.
  split; [reflexivity|].
  apply (C8_success_value_not_pending Demo.world). reflexivity.
Defined.

(** ** The flag [allow_exit] of [run] *)

(** Run with [allow_exit: false]: the context still offers [builtins.exit],
    and the model can end the run with it. *)
Lemma C9_run_drops_allow_exit_witness :
  opts (run_controller
          {| rf_agent := Demo.demo_agent; rf_prompts := [];
             rf_openai_key := "call builtins.exit"; rf_allow_exit := Some false |})
  = {| allow_exit := None |} /\
  In (Direct exit_node)
     (scope_items
        (contextScope
           (run_controller
              {| rf_agent := Demo.demo_agent; rf_prompts := [];
                 rf_openai_key := "call builtins.exit";
                 rf_allow_exit := Some false |}))) /\
  option_map fst
    (run 1 {| rf_agent := Demo.demo_agent; rf_prompts := [];
              rf_openai_key := "call builtins.exit"; rf_allow_exit := Some false |})
  = Some (Returned JsUndefined).
Proof.
  destruct (C9_run_drops_allow_exit Demo.world
              {| rf_agent := Demo.demo_agent; rf_prompts := [];
                 rf_openai_key := "call builtins.exit"; rf_allow_exit := Some false |}
              eq_refl) as (Hopts & Hnode & _).
  split; [exact Hopts|]. split; [exact Hnode | reflexivity].
Defined.

(** ** The registry and the context at work *)

Lemma contextScope_decorated_witness :
  scope_items (contextScope (Samples.hidden_exit []))
  = (map (method_decl "Demo") ["echo"; "fail"; "stop"; "ghost"]
     ++ if or_else (allow_exit (opts (Samples.hidden_exit []))) true
        then [Direct exit_node] else [])%list.
Proof.
  apply (contextScope_decorated Demo.world (Samples.hidden_exit []) "Demo"
           ["echo"; "fail"; "stop"; "ghost"]); reflexivity.
Defined.

Lemma contextScope_exit_node_witness :
  In (Direct exit_node) (scope_items (contextScope (Demo.controller [])))
  <-> allow_exit (opts (Demo.controller [])) <> Some false.
Proof.
  apply (contextScope_exit_node Demo.world (Demo.controller []) "Demo"
           ["echo"; "fail"; "stop"; "ghost"]); reflexivity.
Defined.

Lemma makeController_fresh_witness :
  exists this,
    makeController (Some (fun _ : unit => Demo.demo_agent))
      {| cf_prompts := []; cf_openai_key := "call echo";
         cf_agent_options := tt; cf_allow_exit := Some false |}
    = Returned this /\
    agent this = Demo.demo_agent /\
    retries this = 0 /\
    history this = [] /\
    scope_items (contextScope this)
    = (map (method_decl "Demo") ["echo"; "fail"; "stop"; "ghost"]
       ++ if or_else (Some false) true then [Direct exit_node] else [])%list.
Proof.
  apply (proj2 (makeController_fresh Demo.world unit
                  {| cf_prompts := []; cf_openai_key := "call echo";
                     cf_agent_options := tt; cf_allow_exit := Some false |})
           (fun _ => Demo.demo_agent) "Demo" ["echo"; "fail"; "stop"; "ghost"]);
    reflexivity.
Defined.

Lemma exit_not_gated_by_allow_exit_witness :
  allow_exit (opts (Samples.hidden_exit ["call builtins.exit bye"])) = Some false /\
  exists this',
    tick None (Samples.hidden_exit ["call builtins.exit bye"])
    = (Returned (ResExited {| output := nth 0 [JsString "bye"] JsUndefined |}), this') /\
    allow_exit (opts this') = Some false.
Proof.
  split; [reflexivity|].
  apply (exit_not_gated_by_allow_exit Demo.world None
           (Samples.hidden_exit ["call builtins.exit bye"])
           {| name := "builtins.exit"; reasoning := None;
              arguments := [JsString "bye"] |});
    [reflexivity | reflexivity | reflexivity | simpl; lia].
Defined.

(** ** The loop at work *)

Lemma tick_retries_bounded_witness :
  retries (snd (tick None (Demo.exhausted ["nonsense"])))
  <= max_retries (snd (tick None (Demo.exhausted ["nonsense"]))) /\
  max_retries (snd (tick None (Demo.exhausted ["nonsense"]))) = 5.
Proof.
  apply (tick_retries_bounded Demo.world None (Demo.exhausted ["nonsense"])).
  simpl. lia.
Defined.

Lemma next_message_after_success_witness :
  exists r this' response v,
    tick None (Demo.controller ["call echo hi"]) = (Returned r, this') /\
    isExited r = false /\
    history this'
    = (history (Demo.controller ["call echo hi"])
       ++ [{| call := response; action_output := Some v |}])%list /\
    outgoing (Some (as_pending r)) this'
    = [{| msg_role := user; content := Template.renderOutput Demo.words v |}].
Proof.
  apply (next_message_after_success Demo.world None (Demo.controller ["call echo hi"])).
  reflexivity.
Defined.

Lemma next_message_first_and_corrective_witness :
  outgoing None (Demo.controller ["nonsense"])
  = [{| msg_role := user; content := renderContext (Demo.controller ["nonsense"]) |}] /\
  exists r this',
    tick None (Demo.controller ["nonsense"]) = (Returned r, this') /\
    outgoing (Some (as_pending r)) this'
    = [{| msg_role := system;
          content := "could not extract JSON from your response: nonsense" |}].
Proof.
  destruct (next_message_first_and_corrective Demo.world) as [Hfirst Hnext].
  split; [apply Hfirst|].
  apply (Hnext None (Demo.controller ["nonsense"])
           (Feedback "could not extract JSON from your response: nonsense"));
    [reflexivity | reflexivity | simpl; lia].
Defined.

Lemma runToCompletion_returns_exit_witness :
  exists k pending' this'',
    k < 3 /\
    after k None (Demo.controller ["call echo x"; "b"; "call builtins.exit done"])
    = Some (pending', this'') /\
    caught pending' this'' = Some (Exit (JsString "done")) /\
    retries this'' < max_retries this''.
Proof.
  eapply (runToCompletion_returns_exit Demo.world 3 None
            (Demo.controller ["call echo x"; "b"; "call builtins.exit done"])
            (JsString "done")).
  reflexivity.
Defined.

Lemma runToCompletion_gives_up_witness :
  (exists err this',
      runToCompletion 6 (Demo.controller ["a"; "b"; "c"; "d"; "e"; "f"; "g"])
      = Some (Threw err, this') /\
      recoverable err = true) /\
  (forall fuel, fuel <= 5 ->
      runToCompletion fuel (Demo.controller ["a"; "b"; "c"; "d"; "e"; "f"; "g"]) = None).
Proof.
  apply (runToCompletion_gives_up Demo.world
           (Demo.controller ["a"; "b"; "c"; "d"; "e"; "f"; "g"]));
    reflexivity.
Defined.

(** ** Dispatch at work *)

Lemma dispatch_returns_witness :
  (exists this',
      tick None (Demo.controller ["call echo a b"])
      = (Returned (ResPending {| role := user; prompt := None |}), this') /\
      agent_state (agent this') = 1 /\
      retries this' = 0 /\
      history this'
      = ([] ++ [{| call := {| name := "echo"; reasoning := None;
                              arguments := [JsString "a"; JsString "b"] |};
                   action_output := Some (JsArray [JsString "a"; JsString "b"]) |}])%list) /\
  (caught None (Samples.odd ["call closure"])
   = Some (TypeError "Cannot read properties of undefined (reading 'length')") /\
   unclassified (TypeError "Cannot read properties of undefined (reading 'length')")
   = true /\
   agent_state (agent (snd (tick None (Samples.odd ["call closure"])))) = 1 /\
   history (snd (tick None (Samples.odd ["call closure"]))) = []).
Proof.
  split.
  - apply (dispatch_returns Demo.world None (Demo.controller ["call echo a b"])
             {| name := "echo"; reasoning := None;
                arguments := [JsString "a"; JsString "b"] |}
             (or_else Demo.registry ExportsMap.empty)
             (descriptor "Demo" "echo")
             (fun calls args => (Returned (Json (JsArray args)), S calls))
             (Json (JsArray [JsString "a"; JsString "b"])) 1);
      reflexivity.
  - apply (dispatch_returns Demo.world None (Samples.odd ["call closure"])
             {| name := "closure"; reasoning := None; arguments := [] |}
             (or_else (decorate "Odd" ["hurl"; "closure"; "big"]) ExportsMap.empty)
             (descriptor "Odd" "closure")
             (fun calls _ => (Returned Unrendered, S calls))
             Unrendered 1);
      reflexivity.
Defined.

Lemma dispatch_throws_witness :
  caught None (Demo.controller ["call fail"]) = Some (NativeError "Error" "boom") /\
  agent_state (agent (snd (tick None (Demo.controller ["call fail"])))) = 0 /\
  history (snd (tick None (Demo.controller ["call fail"]))) = [].
Proof.
  eapply (dispatch_throws Demo.world None (Demo.controller ["call fail"])
            {| name := "fail"; reasoning := None; arguments := [] |});
    reflexivity.
Defined.

(** The registry has an entry for [builtins.echo], and the method exists,
    yet the call is taken for a built-in. *)
Lemma builtin_prefix_shadows_registry_witness :
  ExportsMap.get (or_else (agent_exports Samples.shadow_agent) ExportsMap.empty)
    "builtins.echo" <> None /\
  fst (attempt None
         (newAgentController Samples.shadow_agent [] [Returned "call builtins.echo"] None))
  <> Returned tt /\
  agent (snd (tick None
                (newAgentController Samples.shadow_agent []
                   [Returned "call builtins.echo"] None)))
  = Samples.shadow_agent /\
  history (snd (tick None
                  (newAgentController Samples.shadow_agent []
                     [Returned "call builtins.echo"] None))) = [].
Proof.
  split; [vm_compute; discriminate|].
  apply (builtin_prefix_shadows_registry Demo.world None
           (newAgentController Samples.shadow_agent [] [Returned "call builtins.echo"] None)
           {| name := "builtins.echo"; reasoning := None; arguments := [] |});
    reflexivity.
Defined.

Lemma internal_always_propagates_witness :
  exists this',
    tick None (Demo.exhausted ["call builtins.quit"])
    = (Threw (Internal "unknown builtin 'quit'"), this') /\
    retries this' = 5 /\
    history this' = [].
Proof.
  apply (internal_always_propagates Demo.world None
           (Demo.exhausted ["call builtins.quit"]) "unknown builtin 'quit'").
  reflexivity.
Defined.


(** ** The logger at work *)

Lemma plain_width_spaces (n : nat) (s : Log.Text) :
  length (Log.spaces n ++ s)%list = n + length s.
Proof. unfold Log.spaces. rewrite length_app, repeat_length. reflexivity. Qed.

Lemma plain_renders (v : JsValue) :
  v <> JsUndefined -> Log.JSON_stringify Log.plain v <> None.
Proof.
  destruct v as [| |[|]| | | |]; simpl; intros Hv; try discriminate.
  contradiction.
Qed.

(** The JSON text of a string of eighty characters has eighty-two code
    units: it is cut after the seventy-sixth, the five spaces before the cut
    go, and three dots follow.  Of eighty digits the quote and seventy-five
    digits stay. *)
Lemma stringify_shape_witness :
  Log.stringify Log.plain Log.logger (JsString Samples.long_text)
  = Returned
      (Log.text
         (String Log.quote
            "0123456789012345678901234567890123456789012345678901234567890123456789")
       ++ Log.text "...")%list /\
  Log.stringify Log.plain Log.logger (JsString Samples.dense_text)
  = Returned
      (Log.text
         (String Log.quote
            "012345678901234567890123456789012345678901234567890123456789012345678901234")
       ++ Log.text "...")%list /\
  exists kept blank rest,
    Log.text (String Log.quote Samples.long_text ++ String Log.quote "")%string
    = (kept ++ blank ++ rest)%list /\
    length (kept ++ blank)%list = 76 /\
    forallb Log.isWhiteSpace blank = true /\
    (forall kept' ch, kept = (kept' ++ [ch])%list -> Log.isWhiteSpace ch = false) /\
    (Log.text
       (String Log.quote
          "0123456789012345678901234567890123456789012345678901234567890123456789")
     ++ Log.text "...")%list
    = (kept ++ Log.text "...")%list.
Proof.
  split; [reflexivity|]. split; [reflexivity|].
  destruct (stringify_shape Log.plain Log.logger (JsString Samples.long_text)
              (Log.text
                 (String Log.quote
                    "0123456789012345678901234567890123456789012345678901234567890123456789")
               ++ Log.text "...")%list eq_refl) as (_ & Hcut & _).
  destruct (Hcut (Log.text (String Log.quote Samples.long_text
                            ++ String Log.quote "")%string)) as [_ Hlong];
    [discriminate | reflexivity |].
  apply Hlong. vm_compute. lia.
Defined.

Lemma logging_never_throws_witness :
  (exists text, Log.stringify Log.plain Log.logger (JsArray []) = Returned text) /\
  (exists line, Log.returns Log.plain Log.logger (JsArray []) = Returned line) /\
  (exists line, Log.interrupt Log.plain Log.logger (JsArray []) = Returned line) /\
  (exists line, Log.exit Log.plain Log.logger (JsArray []) = Returned line).
Proof.
  apply (logging_never_throws Log.plain Log.logger (JsArray [])).
  exact plain_renders.
Defined.

Lemma quiet_logger_is_silent_witness :
  Log.getLogLevel Log.logger = Log.quiet /\
  Log.trace Log.plain Log.logger (Log.text "call") (Log.text "echo()") = None /\
  Log.trace Log.plain (Log.setLogLevel Log.trace_level Log.logger)
    (Log.text "call") (Log.text "echo()")
  = Some (Log.text "trace:  call echo()").
Proof.
  split; [reflexivity|]. split; [|reflexivity].
  apply (quiet_logger_is_silent Log.plain Log.logger). reflexivity.
Defined.

Lemma trace_header_aligned_witness :
  Log.unicodeWidth Log.plain
    (Log.colors_stripColor Log.plain
       (Log.padded Log.plain Log.logger (Log.text "call")))
  = Nat.max 5 4 /\
  Log.padded Log.plain Log.logger (Log.text "feedback") = Log.text "feedback".
Proof.
  destruct (trace_header_aligned Log.plain Log.logger (Log.text "call")
              (fun n s => eq_refl) plain_width_spaces) as [Hw _].
  destruct (trace_header_aligned Log.plain Log.logger (Log.text "feedback")
              (fun n s => eq_refl) plain_width_spaces) as [_ Hwide].
  split; [exact Hw | apply Hwide; simpl; lia].
Defined.
